(** * Registration-form validators and age calculator: a shallow embedding

    The development follows the JavaScript sources

    - [src/utils/validator.js]  (validateAge, validatePostCode,
      validateIdentity, validateEmail, validateTown),
    - [src/module.js]           (calculateAge against the wall clock),
    - [src/unnamed/part_000]    (the file of unknown name that the tests import
      as utils/module.js: calculateAge with an injectable reference date),
    - [src/component/Form.jsx]  (validateField, validateForm).

    The built-ins the code calls ([Date], [RegExp.prototype.test],
    [String.prototype.trim]) are modelled after ECMA-262: dates are time
    values in milliseconds since the epoch (or NaN), strings are sequences of
    UTF-16 code units, and regular-expression literals are syntax trees run
    by a derivative matcher. *)

From Stdlib Require Import ZArith NArith Lia Bool List Ascii String.
From stdpp Require Import base gmap strings list.
Import ListNotations.

Ltac Zify.zify_post_hook ::= Z.to_euclidean_division_equations.

(* ===================================================================== *)
(** * Part I.  Definitions                                                *)
(* ===================================================================== *)

(** ** JavaScript values *)

Module JS.

(** A Number, as far as this program needs it: an integer or NaN.  Every
    number the code computes is a time value, a calendar field or a
    difference of two of them. *)
Inductive number := NaN | Int (z : Z).

Definition isNaN (n : number) : bool :=
  match n with NaN => true | Int _ => false end.

(** [a - b] *)
Definition sub (a b : number) : number :=
  match a, b with Int x, Int y => Int (x - y) | _, _ => NaN end.

(** [a > b], [a >= b], [a < b]: false as soon as one side is NaN. *)
Definition gt (a b : number) : bool :=
  match a, b with Int x, Int y => (y <? x)%Z | _, _ => false end.
Definition ge (a b : number) : bool :=
  match a, b with Int x, Int y => (y <=? x)%Z | _, _ => false end.
Definition lt (a b : number) : bool :=
  match a, b with Int x, Int y => (x <? y)%Z | _, _ => false end.

(** [a === b] and [a !== b] on numbers: NaN is different from everything. *)
Definition strict_eq (a b : number) : bool :=
  match a, b with Int x, Int y => (x =? y)%Z | _, _ => false end.
Definition strict_ne (a b : number) : bool := negb (strict_eq a b).

Definition Math_abs (n : number) : number :=
  match n with NaN => NaN | Int z => Int (Z.abs z) end.

(** A String is a sequence of UTF-16 code units. *)
Definition jsstring := list N.

(** The code units of an ASCII literal. *)
Fixpoint str (s : string) : jsstring :=
  match s with
  | EmptyString => []
  | String a s' => N_of_ascii a :: str s'
  end.

Set Warnings "-register-all".

(** The values that reach the functions under study.  A [Date] object is
    its time value; a plain object is its list of own properties. *)
Inductive value :=
| VUndefined
| VNull
| VBool (b : bool)
| VNumber (n : number)
| VString (s : jsstring)
| VDate (tv : number)
| VObject (props : list (string * value)).

(** ToBoolean, as used by [!p]. *)
Definition ToBoolean (v : value) : bool :=
  match v with
  | VUndefined | VNull => false
  | VBool b => b
  | VNumber NaN => false
  | VNumber (Int z) => negb (z =? 0)%Z
  | VString s => match s with [] => false | _ => true end
  | VDate _ | VObject _ => true
  end.


Definition typeof_string (v : value) : bool :=
  match v with VString _ => true | _ => false end.

Definition instanceof_Date (v : value) : bool :=
  match v with VDate _ => true | _ => false end.

(** [v.getTime()], evaluated only behind [instanceof Date]. *)
Definition getTime (v : value) : number :=
  match v with VDate tv => tv | _ => NaN end.

(** Property lookup in a plain object. *)
Fixpoint lookup_prop (k : string) (props : list (string * value)) : option value :=
  match props with
  | [] => None
  | (k', v) :: rest => if String.eqb k k' then Some v else lookup_prop k rest
  end.

(** What is thrown: [new Error(message)], a thrown object literal
    [{code, message}] (the code is absent in [{message}]), or the engine's
    own TypeError. *)
Inductive exn :=
| Error (message : string)
| Thrown (code : option string) (message : string)
| TypeError.

Inductive result (A : Type) :=
| Ok (a : A)
| Throw (e : exn).
Arguments Ok {A} a.
Arguments Throw {A} e.

(** [key in v]: a TypeError on a primitive; a Date object has no own
    property of the names used here. *)
Definition has_property (k : string) (v : value) : result bool :=
  match v with
  | VObject props => Ok (match lookup_prop k props with Some _ => true | None => false end)
  | VDate _ => Ok false
  | _ => Throw TypeError
  end.

(** [v.key] on an object ([undefined] when absent). *)
Definition get_property (k : string) (v : value) : value :=
  match v with
  | VObject props => match lookup_prop k props with Some x => x | None => VUndefined end
  | _ => VUndefined
  end.

(** The host: its time zone (a constant offset from UTC, in milliseconds),
    the reading of the wall clock, and its date parser. *)
Record Env := mkEnv {
  LocalTZA : Z;
  clock : Z;
  DateParse : jsstring -> number
}.

End JS.
Import JS.

(** ** Date: the abstract operations of ECMA-262 (Time Values and Time Range) *)

Module DateOps.
Open Scope Z_scope.

Definition msPerDay : Z := 86400000.
Definition maxTime : Z := 8640000000000000.

Definition Day (t : Z) : Z := t / msPerDay.
Definition TimeWithinDay (t : Z) : Z := t mod msPerDay.

Definition DaysInYear (y : Z) : Z :=
  if negb (y mod 4 =? 0) then 365
  else if negb (y mod 100 =? 0) then 366
  else if negb (y mod 400 =? 0) then 365
  else 366.

Definition DayFromYear (y : Z) : Z :=
  365 * (y - 1970) + (y - 1969) / 4 - (y - 1901) / 100 + (y - 1601) / 400.

Definition TimeFromYear (y : Z) : Z := msPerDay * DayFromYear y.

(** The year of a day number.  ECMA-262 specifies it as the largest [y] with
    [TimeFromYear y <= t]; here it is computed from the mean length of a
    Gregorian year and corrected by at most one ([YearFromDay_spec] and
    [YearFromTime_largest] below show that this is that year). *)
Definition YearFromDay (d : Z) : Z :=
  let y0 := 1970 + (400 * d) / 146097 in
  if DayFromYear (y0 + 1) <=? d then y0 + 1
  else if DayFromYear y0 <=? d then y0
  else y0 - 1.

Definition YearFromTime (t : Z) : Z := YearFromDay (Day t).

Definition InLeapYear (t : Z) : Z :=
  if DaysInYear (YearFromTime t) =? 366 then 1 else 0.

Definition DayWithinYear (t : Z) : Z := Day t - DayFromYear (YearFromTime t).

Definition MonthFromTime (t : Z) : Z :=
  let d := DayWithinYear t in
  let l := InLeapYear t in
  if d <? 31 then 0
  else if d <? 59 + l then 1
  else if d <? 90 + l then 2
  else if d <? 120 + l then 3
  else if d <? 151 + l then 4
  else if d <? 181 + l then 5
  else if d <? 212 + l then 6
  else if d <? 243 + l then 7
  else if d <? 273 + l then 8
  else if d <? 304 + l then 9
  else if d <? 334 + l then 10
  else 11.

Definition DateFromTime (t : Z) : Z :=
  let d := DayWithinYear t in
  let l := InLeapYear t in
  match MonthFromTime t with
  | 0 => d + 1
  | 1 => d - 30
  | 2 => d - 58 - l
  | 3 => d - 89 - l
  | 4 => d - 119 - l
  | 5 => d - 150 - l
  | 6 => d - 180 - l
  | 7 => d - 211 - l
  | 8 => d - 242 - l
  | 9 => d - 272 - l
  | 10 => d - 303 - l
  | _ => d - 333 - l
  end.

(** Days from the start of a year to the start of month [mn] (0..11). *)
Definition DaysBeforeMonth (mn l : Z) : Z :=
  match mn with
  | 0 => 0
  | 1 => 31
  | 2 => 59 + l
  | 3 => 90 + l
  | 4 => 120 + l
  | 5 => 151 + l
  | 6 => 181 + l
  | 7 => 212 + l
  | 8 => 243 + l
  | 9 => 273 + l
  | 10 => 304 + l
  | _ => 334 + l
  end.

(** MakeDay: the day number of the first of month [mn] of year [ym], plus
    [date - 1].  Arguments out of range are carried over, not rejected. *)
Definition MakeDay (year month date : Z) : Z :=
  let ym := year + month / 12 in
  let mn := month mod 12 in
  let l := if DaysInYear ym =? 366 then 1 else 0 in
  DayFromYear ym + DaysBeforeMonth mn l + date - 1.

Definition MakeTime (hour min sec ms : Z) : Z :=
  hour * 3600000 + min * 60000 + sec * 1000 + ms.

Definition MakeDate (day time : Z) : Z := day * msPerDay + time.

Definition TimeClip (n : number) : number :=
  match n with
  | NaN => NaN
  | Int t => if Z.abs t <=? maxTime then Int t else NaN
  end.

Section Host.
Variable h : Env.

Definition LocalTime (t : Z) : Z := t + LocalTZA h.
Definition UTC (t : Z) : Z := t - LocalTZA h.

(** [new Date()] *)
Definition Date_now : value := VDate (Int (clock h)).

(** [new Date(n)] for a number [n] *)
Definition Date_ofNumber (n : number) : value := VDate (TimeClip n).

(** [new Date(s)] for a string [s] *)
Definition Date_ofString (s : jsstring) : value := VDate (TimeClip (DateParse h s)).

(** [new Date(year, month, date)]: a two-digit year counts from 1900, the
    fields are read in local time. *)
Definition Date_ofFields (year month date : number) : value :=
  match year, month, date with
  | Int y, Int m, Int dt =>
      let yr := if (0 <=? y) && (y <=? 99) then 1900 + y else y in
      let finalDate := MakeDate (MakeDay yr m dt) (MakeTime 0 0 0 0) in
      VDate (TimeClip (Int (UTC finalDate)))
  | _, _, _ => VDate NaN
  end.

Definition getFullYear (d : value) : number :=
  match getTime d with NaN => NaN | Int t => Int (YearFromTime (LocalTime t)) end.
Definition getMonth (d : value) : number :=
  match getTime d with NaN => NaN | Int t => Int (MonthFromTime (LocalTime t)) end.
Definition getDate (d : value) : number :=
  match getTime d with NaN => NaN | Int t => Int (DateFromTime (LocalTime t)) end.
Definition getUTCFullYear (d : value) : number :=
  match getTime d with NaN => NaN | Int t => Int (YearFromTime t) end.
End Host.

End DateOps.
Import DateOps.

(** ** Regular expressions *)

Module RegExp.

(** The pattern syntax the literals of the program use: character classes
    (lists of code-unit ranges, possibly negated), sequence, and the
    quantifiers, which all unfold to [RStar].  [REmpty] and [RAlt] only
    arise while matching. *)
Inductive regex :=
| REmpty
| REps
| RClass (negated : bool) (ranges : list (N * N))
| RSeq (r1 r2 : regex)
| RAlt (r1 r2 : regex)
| RStar (r : regex).

(** [r+], [r{n}] and [r{n,}] *)
Definition RPlus (r : regex) : regex := RSeq r (RStar r).
Fixpoint RRepeat (n : nat) (r : regex) : regex :=
  match n with
  | O => REps
  | S n' => RSeq r (RRepeat n' r)
  end.
Definition RAtLeast (n : nat) (r : regex) : regex := RSeq (RRepeat n r) (RStar r).

(** A single character [c] *)
Definition RChar (c : N) : regex := RClass false [(c, c)].
(** Any code unit *)
Definition RAny : regex := RClass true [].

Definition in_ranges (ranges : list (N * N)) (c : N) : bool :=
  existsb (fun '(lo, hi) => (lo <=? c)%N && (c <=? hi)%N) ranges.

Definition class_matches (negated : bool) (ranges : list (N * N)) (c : N) : bool :=
  xorb negated (in_ranges ranges c).

Fixpoint nullable (r : regex) : bool :=
  match r with
  | REmpty => false
  | REps => true
  | RClass _ _ => false
  | RSeq r1 r2 => nullable r1 && nullable r2
  | RAlt r1 r2 => nullable r1 || nullable r2
  | RStar _ => true
  end.

(** The derivative of [r] by the code unit [c]. *)
Fixpoint deriv (c : N) (r : regex) : regex :=
  match r with
  | REmpty => REmpty
  | REps => REmpty
  | RClass neg rs => if class_matches neg rs c then REps else REmpty
  | RSeq r1 r2 =>
      if nullable r1 then RAlt (RSeq (deriv c r1) r2) (deriv c r2)
      else RSeq (deriv c r1) r2
  | RAlt r1 r2 => RAlt (deriv c r1) (deriv c r2)
  | RStar r1 => RSeq (deriv c r1) (RStar r1)
  end.

(** Does [r] match the whole of [s]? *)
Fixpoint matches (r : regex) (s : jsstring) : bool :=
  match s with
  | [] => nullable r
  | c :: s' => matches (deriv c r) s'
  end.

(** The strings a pattern denotes. *)
Inductive lang : regex -> jsstring -> Prop :=
| lang_eps : lang REps []
| lang_class neg rs c :
    class_matches neg rs c = true -> lang (RClass neg rs) [c]
| lang_seq r1 r2 s1 s2 :
    lang r1 s1 -> lang r2 s2 -> lang (RSeq r1 r2) (s1 ++ s2)
| lang_alt_l r1 r2 s : lang r1 s -> lang (RAlt r1 r2) s
| lang_alt_r r1 r2 s : lang r2 s -> lang (RAlt r1 r2) s
| lang_star_nil r : lang (RStar r) []
| lang_star_app r s1 s2 :
    lang r s1 -> lang (RStar r) s2 -> lang (RStar r) (s1 ++ s2).

(** A regular-expression literal without flags: the pattern, and whether it
    starts with [^] and ends with [$]. *)
Record literal := mkLiteral {
  anchoredStart : bool;
  pattern : regex;
  anchoredEnd : bool
}.

(** [re.test(s)]: the pattern matches some substring of [s], which an
    anchor pins to the start or to the end of [s]. *)
Definition test (re : literal) (s : jsstring) : bool :=
  matches
    (RSeq (if anchoredStart re then REps else RStar RAny)
       (RSeq (pattern re) (if anchoredEnd re then REps else RStar RAny)))
    s.

(** The character classes of the literals. *)

(** [\d] *)
Definition digit : list (N * N) := [(48, 57)]%N.
(** [A-Za-z] *)
Definition letters : list (N * N) := [(65, 90); (97, 122)]%N.
(** [A-Za-zÀ-ÖØ-öø-ÿ\-]: U+00C0..U+00D6, U+00D8..U+00F6, U+00F8..U+00FF, and
    the hyphen U+002D. *)
Definition nameChars : list (N * N) :=
  [(65, 90); (97, 122); (192, 214); (216, 246); (248, 255); (45, 45)]%N.
(** [\s]: the WhiteSpace and LineTerminator code points. *)
Definition whiteSpace : list (N * N) :=
  [(9, 13); (32, 32); (160, 160); (5760, 5760); (8192, 8202); (8232, 8233);
   (8239, 8239); (8287, 8287); (12288, 12288); (65279, 65279)]%N.
(** [A-Za-zÀ-ÖØ-öø-ÿ\s\-] *)
Definition townChars : list (N * N) :=
  [(65, 90); (97, 122); (192, 214); (216, 246); (248, 255)]%N ++ whiteSpace ++ [(45, 45)]%N.
(** [a-zA-Z0-9._-] *)
Definition emailLocalChars : list (N * N) :=
  [(97, 122); (65, 90); (48, 57); (46, 46); (95, 95); (45, 45)]%N.
(** [a-zA-Z0-9.-] *)
Definition emailDomainChars : list (N * N) :=
  [(97, 122); (65, 90); (48, 57); (46, 46); (45, 45)]%N.

(** [/^\d{5}$/] *)
Definition rePostCode : literal :=
  mkLiteral true (RRepeat 5 (RClass false digit)) true.

(** [/<[^>]*/]: the code units 60 and 62 are [<] and [>]. *)
Definition reTag : literal :=
  mkLiteral false (RSeq (RChar 60) (RStar (RClass true [(62, 62)]%N))) false.

(** [/^[A-Za-zÀ-ÖØ-öø-ÿ\-]+$/] *)
Definition reName : literal :=
  mkLiteral true (RPlus (RClass false nameChars)) true.

(** [/^[a-zA-Z0-9._-]+@[a-zA-Z0-9.-]+\.[a-zA-Z]{2,}$/]: 64 is [@], 46 is [.]. *)
Definition reEmail : literal :=
  mkLiteral true
    (RSeq (RPlus (RClass false emailLocalChars))
       (RSeq (RChar 64)
          (RSeq (RPlus (RClass false emailDomainChars))
             (RSeq (RChar 46)
                (RAtLeast 2 (RClass false letters))))))
    true.

(** [/^[A-Za-zÀ-ÖØ-öø-ÿ\s\-]+$/] *)
Definition reTown : literal :=
  mkLiteral true (RPlus (RClass false townChars)) true.

End RegExp.
Import RegExp.

(** [s.trim()]: white space and line terminators removed at both ends. *)
Definition isWhiteSpace (c : N) : bool := in_ranges whiteSpace c.

Fixpoint trimStart (s : jsstring) : jsstring :=
  match s with
  | [] => []
  | c :: s' => if isWhiteSpace c then trimStart s' else s
  end.

Definition trim (s : jsstring) : jsstring := rev (trimStart (rev (trimStart s))).

(** ** [src/utils/validator.js] *)

Module Validator.

Definition INVALID_DATE : string := "INVALID_DATE".
Definition INVALID_AGE : string := "INVALID_AGE".
Definition INVALID_POST_CODE : string := "INVALID_POST_CODE".
Definition INVALID_IDENTITY : string := "INVALID_IDENTITY".
Definition INVALID_EMAIL : string := "INVALID_EMAIL".
Definition INVALID_TOWN : string := "INVALID_TOWN".

(** [throw { code, message }] *)
Definition fail {A} (code message : string) : result A :=
  Throw (Thrown (Some code) message).

(** The whole-years age both [validateAge] and [calculateAge] compute: the
    difference of the years, one less when the birthday of the year is still
    to come. *)
Definition ageAt (h : Env) (now birth : value) : number :=
  let age := sub (getFullYear h now) (getFullYear h birth) in
  let hasHadBirthday :=
    gt (getMonth h now) (getMonth h birth)
    || (strict_eq (getMonth h now) (getMonth h birth)
        && ge (getDate h now) (getDate h birth)) in
  if negb hasHadBirthday then sub age (Int 1) else age.

Definition validateAge (h : Env) (birth : value) : result unit :=
  if negb (instanceof_Date birth) || isNaN (getTime birth) then
    fail INVALID_DATE "Birth date is invalid"
  else
    let now := Date_now h in
    if gt (getTime birth) (getTime now) then
      fail INVALID_DATE "Birth date cannot be in the future"
    else
      let age := ageAt h now birth in
      if lt age (Int 18) then
        fail INVALID_AGE "Must be at least 18 years old"
      else Ok tt.

(** The string behind a value that passed [typeof v !== "string"]. *)
Definition string_of (v : value) : jsstring :=
  match v with VString s => s | _ => [] end.

Definition validatePostCode (h : Env) (pc : value) : result unit :=
  if negb (typeof_string pc) || negb (test rePostCode (string_of pc)) then
    fail INVALID_POST_CODE "Invalid post code"
  else Ok tt.

Definition validateIdentity (h : Env) (name : value) : result unit :=
  if negb (typeof_string name) then
    fail INVALID_IDENTITY "Invalid name"
  else if test reTag (string_of name) then
    fail INVALID_IDENTITY "XSS detected"
  else if negb (test reName (string_of name)) then
    fail INVALID_IDENTITY "Invalid characters in name"
  else Ok tt.

Definition validateEmail (h : Env) (email : value) : result unit :=
  if negb (typeof_string email) || negb (test reEmail (string_of email)) then
    fail INVALID_EMAIL "Invalid email format"
  else Ok tt.

Definition validateTown (h : Env) (town : value) : result unit :=
  if negb (typeof_string town) || negb (test reTown (string_of town)) then
    fail INVALID_TOWN "Invalid town name"
  else Ok tt.

End Validator.

(** ** The two copies of calculateAge *)

(** The calendar check both copies of calculateAge make: a Date is rebuilt
    from the year, month and day of [birth], and the check fails when one of
    the three fields of the rebuilt Date differs. *)
Definition existingDate (h : Env) (birth : value) : value :=
  Date_ofFields h (getFullYear h birth) (getMonth h birth) (getDate h birth).

Definition notOnCalendar (h : Env) (birth : value) : bool :=
  strict_ne (getFullYear h (existingDate h birth)) (getFullYear h birth)
  || strict_ne (getMonth h (existingDate h birth)) (getMonth h birth)
  || strict_ne (getDate h (existingDate h birth)) (getDate h birth).

(** *** [src/unnamed/part_000], lines 46-94: calculateAge with an injectable
    reference date (the file the tests import as utils/module.js) *)

Module Part000.
Import Validator.

(** [currentDate] is [None] when the argument is left out (the default
    [new Date()] applies) and [Some tv] for a Date object of time value [tv]. *)
Definition calculateAge (h : Env) (p : value) (currentDate : option number) : result number :=
  let currentDate :=
    match currentDate with Some tv => VDate tv | None => Date_now h end in
  if negb (ToBoolean p) then Throw (Error "missing param p")
  else
    match has_property "birth" p with
    | Throw e => Throw e
    | Ok false => Throw (Error "missing birth field")
    | Ok true =>
        if negb (instanceof_Date (get_property "birth" p))
           || isNaN (getTime (get_property "birth" p))
        then Throw (Error "birth must be a valid Date")
        else
          let birth := get_property "birth" p in
          if lt (getFullYear h birth) (Int 1970) then Throw (Error "invalid date")
          else if gt (getTime birth) (getTime currentDate) then Throw (Error "invalid date")
          else if notOnCalendar h birth then Throw (Error "invalid date")
          else Ok (ageAt h currentDate birth)
    end.

End Part000.

(** *** [src/module.js], lines 7-50: calculateAge against the wall clock *)

Module SrcModule.

Definition calculateAge (h : Env) (p : value) : result number :=
  if negb (ToBoolean p) then Throw (Error "missing param p")
  else
    match has_property "birth" p with
    | Throw e => Throw e
    | Ok false => Throw (Error "missing birth field")
    | Ok true =>
        if negb (instanceof_Date (get_property "birth" p))
           || isNaN (getTime (get_property "birth" p))
        then Throw (Error "birth must be a valid Date")
        else
          let birth := get_property "birth" p in
          let now := Date_now h in
          if lt (getFullYear h birth) (Int 1970) then Throw (Error "invalid date")
          else if gt (getTime birth) (getTime now) then Throw (Error "invalid date")
          else if notOnCalendar h birth then Throw (Error "invalid date")
          else
            let dateDiff := Date_ofNumber (sub (getTime now) (getTime birth)) in
            Ok (Math_abs (sub (getUTCFullYear dateDiff) (Int 1970)))
    end.

(** The wall-clock copy as the specification describes it: no guard on
    years before 1970 and no calendar check, the age taken from the elapsed
    milliseconds. *)
Definition calculateAge_described (h : Env) (p : value) : result number :=
  if negb (ToBoolean p) then Throw (Error "missing param p")
  else
    match has_property "birth" p with
    | Throw e => Throw e
    | Ok false => Throw (Error "missing birth field")
    | Ok true =>
        if negb (instanceof_Date (get_property "birth" p))
           || isNaN (getTime (get_property "birth" p))
        then Throw (Error "birth must be a valid Date")
        else
          let birth := get_property "birth" p in
          let now := Date_now h in
          if gt (getTime birth) (getTime now) then Throw (Error "invalid date")
          else
            let dateDiff := Date_ofNumber (sub (getTime now) (getTime birth)) in
            Ok (Math_abs (sub (getUTCFullYear dateDiff) (Int 1970)))
    end.

End SrcModule.

(** ** [src/component/Form.jsx] *)

Module Form.
Import Validator.

(** The six fields of the form, all strings. *)
Record Fields := mkFields {
  lastname : jsstring;
  firstname : jsstring;
  email : jsstring;
  birth : jsstring;
  postCode : jsstring;
  town : jsstring
}.

Definition initialState : Fields := mkFields [] [] [] [] [] [].

(** [Object.entries(form)] and [Object.values(form)], in insertion order. *)
Definition entries (f : Fields) : list (string * jsstring) :=
  [("lastname", lastname f); ("firstname", firstname f); ("email", email f);
   ("birth", birth f); ("postCode", postCode f); ("town", town f)].

Definition values (f : Fields) : list jsstring := map snd (entries f).

(** [(err && (err.message || err.code)) || String(err)] in the catch clause. *)
Definition errorText (err : exn) : string :=
  match err with
  | Thrown code message =>
      if negb (String.eqb message "") then message
      else match code with
           | Some c => if negb (String.eqb c "") then c else "[object Object]"
           | None => "[object Object]"
           end
  | Error message => if negb (String.eqb message "") then message else "Error"
  | TypeError => "TypeError"
  end.

(** The error message of a field, or [None] for [undefined]. *)
Definition validateField (h : Env) (name : string) (value : jsstring) : option string :=
  let attempt : result unit :=
    if String.eqb name "email" then validateEmail h (VString value)
    else if String.eqb name "lastname" || String.eqb name "firstname" then
      validateIdentity h (VString value)
    else if String.eqb name "birth" then
      if negb (ToBoolean (VString value)) then Throw (Thrown None "Birth is required")
      else
        let d := Date_ofString h value in
        validateAge h d
    else if String.eqb name "postCode" then validatePostCode h (VString value)
    else if String.eqb name "town" then validateTown h (VString value)
    else Ok tt in
  match attempt with
  | Ok _ => None
  | Throw err => Some (errorText err)
  end.

(** [value === '' || ... || String(value).trim() === ''] on a string. *)
Definition isBlank (value : jsstring) : bool :=
  match value with
  | [] => true
  | _ => match trim value with [] => true | _ => false end
  end.

(** [if (fieldError)] *)
Definition truthy (fieldError : option string) : bool :=
  match fieldError with
  | Some m => negb (String.eqb m "")
  | None => false
  end.

(** Used in the proofs: what a validator throws shows as a message in the
    form. *)
Definition reported (r : result unit) : Prop :=
  match r with
  | Ok _ => True
  | Throw e => truthy (Some (errorText e)) = true
  end.

(** Used in the proofs: an entry that adds no error, that is a field that is
    filled in and whose validator returns. *)
Definition clean (h : Env) (entry : string * jsstring) : Prop :=
  isBlank (snd entry) = false
  /\ truthy (validateField h (fst entry) (snd entry)) = false.

(** The component's state and what validateForm returns. *)
Record State := mkState {
  form : Fields;
  errors : gmap string string;
  isValid : bool
}.

Record Validation := mkValidation {
  newErrors : gmap string string;
  allFilled : bool;
  noErrors : bool
}.

(** One step of the [forEach] over the entries. *)
Definition checkEntry (h : Env) (acc : gmap string string)
    (entry : string * jsstring) : gmap string string :=
  let '(name, value) := entry in
  if isBlank value then <[name := "This field is required"%string]> acc
  else
    match validateField h name value with
    | Some fieldError =>
        if truthy (Some fieldError) then <[name := fieldError]> acc else acc
    | None => acc
    end.

Definition validateForm (h : Env) (st : State) : Validation * State :=
  let newErrors := fold_left (checkEntry h) (entries (form st)) ∅ in
  let allFilled := forallb (fun v => negb (isBlank v)) (values (form st)) in
  let noErrors := Nat.eqb (size newErrors) 0 in
  (mkValidation newErrors allFilled noErrors,
   mkState (form st) newErrors (allFilled && noErrors)).

(** The submit button is rendered with [disabled={!isValid}]. *)
Definition submitEnabled (st : State) : bool := isValid st.

(** The flag the form derives for a record of six fields. *)
Definition submittable (h : Env) (f : Fields) : bool :=
  submitEnabled (snd (validateForm h (mkState f ∅ false))).

End Form.

(** ** A sample host *)

Module SampleHost.
Open Scope Z_scope.

Definition digitValue (c : N) : option Z :=
  if (48 <=? c)%N && (c <=? 57)%N then Some (Z.of_N c - 48) else None.

Definition daysInMonth (y m : Z) : Z :=
  MakeDay y (m + 1) 1 - MakeDay y m 1.

(** The date-only form [YYYY-MM-DD] of the Date Time String Format, read as
    UTC midnight; every other string is unparsable for this host. *)
Definition isoDateParse (s : jsstring) : number :=
  match s with
  | [y1; y2; y3; y4; 45%N; m1; m2; 45%N; d1; d2] =>
      match digitValue y1, digitValue y2, digitValue y3, digitValue y4,
            digitValue m1, digitValue m2, digitValue d1, digitValue d2 with
      | Some a, Some b, Some c, Some d, Some e, Some f, Some g, Some i =>
          let y := 1000 * a + 100 * b + 10 * c + d in
          let m := 10 * e + f in
          let dt := 10 * g + i in
          if (1 <=? m) && (m <=? 12) && (1 <=? dt) && (dt <=? daysInMonth y (m - 1))
          then Int (MakeDate (MakeDay y (m - 1) dt) 0)
          else NaN
      | _, _, _, _, _, _, _, _ => NaN
      end
  | _ => NaN
  end.

(** The time value of midnight UTC of a calendar date (months from 1). *)
Definition utcDate (y m dt : Z) : Z := MakeDate (MakeDay y (m - 1) dt) 0.

(** A host one hour east of UTC whose clock reads 2026-03-01T12:00:00Z. *)
Definition paris : Env :=
  mkEnv 3600000 (utcDate 2026 3 1 + 12 * 3600000) isoDateParse.


(** The same host a day later and two weeks earlier, and a host in the same
    zone with the same clock but another parser. *)
Definition parisNextDay : Env :=
  mkEnv 3600000 (utcDate 2026 3 2 + 12 * 3600000) isoDateParse.
Definition parisFebruary : Env :=
  mkEnv 3600000 (utcDate 2026 2 15 + 12 * 3600000) isoDateParse.
Definition parisNoParser : Env :=
  mkEnv 3600000 (utcDate 2026 3 1 + 12 * 3600000) (fun _ => NaN).

(** Subjects of calculateAge. *)
Definition person (tb : Z) : value := VObject [("birth"%string, VDate (Int tb))].
(** Born at local midnight of 1969-12-31 in the zone of [paris]. *)
Definition bornIn1969 : value := person (utcDate 1969 12 31 - 3600000).
Definition bornIn1991 : value := person (utcDate 1991 11 7).

(** The record the tests of the form type in. *)
Definition jeanPierre : Form.Fields :=
  Form.mkFields (str "Jean") (str "Pierre") (str "jean@example.com")
    (str "1995-05-15") (str "75001") (str "Paris").

End SampleHost.

(** ** The vocabulary of the specification *)

Module Spec.

(** Sets of code units the specification names. *)
Definition latinLetter (c : N) : Prop := (65 <= c <= 90 \/ 97 <= c <= 122)%N.
(** The accented letters of Latin-1 (U+00C0..U+00FF without the signs
    U+00D7 and U+00F7), as the documentation of the validators lists them. *)
Definition accentedLetter (c : N) : Prop :=
  (192 <= c <= 214 \/ 216 <= c <= 246 \/ 248 <= c <= 255)%N.
Definition asciiDigit (c : N) : Prop := (48 <= c <= 57)%N.
Definition hyphen : N := 45.
Definition dot : N := 46.
Definition underscore : N := 95.
Definition atSign : N := 64.
Definition lessThan : N := 60.
Definition greaterThan : N := 62.

Definition nameChar (c : N) : Prop :=
  latinLetter c \/ accentedLetter c \/ c = hyphen.

(** A [<] followed by a run of characters other than [>]. *)
Definition hasOpeningTag (s : jsstring) : Prop :=
  exists before run after,
    s = before ++ [lessThan] ++ run ++ after /\ Forall (fun c => c <> greaterThan) run.

Definition emailLocalChar (c : N) : Prop :=
  latinLetter c \/ asciiDigit c \/ c = dot \/ c = underscore \/ c = hyphen.
Definition emailDomainChar (c : N) : Prop :=
  latinLetter c \/ asciiDigit c \/ c = dot \/ c = hyphen.

(** [local@domain.tld] *)
Definition emailShape (s : jsstring) : Prop :=
  exists loc domain tld,
    s = loc ++ [atSign] ++ domain ++ [dot] ++ tld
    /\ loc <> [] /\ Forall emailLocalChar loc
    /\ domain <> [] /\ Forall emailDomainChar domain
    /\ (2 <= length tld)%nat /\ Forall latinLetter tld.

(** Calendar fields of a time value in the zone of the host. *)
Definition localYear (h : Env) (t : Z) : Z := YearFromTime (LocalTime h t).
Definition localMonth (h : Env) (t : Z) : Z := MonthFromTime (LocalTime h t).
Definition localDate (h : Env) (t : Z) : Z := DateFromTime (LocalTime h t).
Definition localDay (h : Env) (t : Z) : Z := Day (LocalTime h t).

(** [(m1, d1)] comes before [(m2, d2)] in the year. *)
Definition lexLess (m1 d1 m2 d2 : Z) : Prop :=
  (m1 < m2 \/ (m1 = m2 /\ d1 < d2))%Z.

(** The length of month [m] (0..11) of year [y], and the dates of the
    Gregorian calendar. *)
Definition daysInMonth (y m : Z) : Z :=
  match m with
  | 1 => if (DaysInYear y =? 366)%Z then 29 else 28
  | 3 | 5 | 8 | 10 => 30
  | _ => 31
  end.

Definition onCalendar (y m d : Z) : Prop :=
  (0 <= m <= 11 /\ 1 <= d <= daysInMonth y m)%Z.

(** A well-formed Date: a Date object whose time value is not NaN. *)
Definition wellFormedDate (d : value) : Prop := exists t, d = VDate (Int t).

(** A Date strictly later than the reading of the wall clock. *)
Definition laterThanNow (h : Env) (d : value) : Prop :=
  exists t, d = VDate (Int t) /\ (clock h < t)%Z.

(** A time value of the range ECMA-262 allows for a Date. *)
Definition timeValue (t : Z) : Prop := (Z.abs t <= maxTime)%Z.

(** A zone less than a day away from UTC. *)
Definition plausibleZone (h : Env) : Prop := (Z.abs (LocalTZA h) < msPerDay)%Z.



(** The reference date of calculateAge: the argument, or the wall clock. *)
Definition referenceTime (h : Env) (currentDate : option number) : number :=
  match currentDate with Some tv => tv | None => Int (clock h) end.




(** The messages calculateAge fails with. *)
Definition missingParam : exn := Error "missing param p".
Definition missingBirth : exn := Error "missing birth field".
Definition notADate : exn := Error "birth must be a valid Date".
Definition invalidDate : exn := Error "invalid date".

End Spec.

(** ** [src/component/Form.jsx]: the change handler *)

Module FormHandlers.
Import Form.


(** [form[name]]: the value of a field, [None] for another name. *)
Definition field (name : string) (f : Fields) : option jsstring :=
  if String.eqb name "lastname" then Some (lastname f)
  else if String.eqb name "firstname" then Some (firstname f)
  else if String.eqb name "email" then Some (email f)
  else if String.eqb name "birth" then Some (birth f)
  else if String.eqb name "postCode" then Some (postCode f)
  else if String.eqb name "town" then Some (town f)
  else None.

(** The errors validateForm computes for a record. *)
Definition errorsOf (h : Env) (f : Fields) : gmap string string :=
  newErrors (fst (validateForm h (mkState f ∅ false))).

End FormHandlers.

(** ** Further vocabulary *)

Module Notions.
Import Spec.

(** The date [(y1, m1, d1)] is not after [(y2, m2, d2)]. *)
Definition dateLe (y1 m1 d1 y2 m2 d2 : Z) : Prop :=
  (y1 < y2 \/ (y1 = y2 /\ (m1 < m2 \/ (m1 = m2 /\ d1 <= d2))))%Z.

(** The characters of a town name: those of a name, and white space. *)
Definition townChar (c : N) : Prop := nameChar c \/ isWhiteSpace c = true.

(** The characters that open and close a tag. *)
Definition markup (c : N) : Prop := c = lessThan \/ c = greaterThan.

(** What the form shows for a field: that it is required when it is blank,
    otherwise the message of its validator, if any. *)
Definition fieldMessage (h : Env) (name : string) (value : jsstring) : option string :=
  if Form.isBlank value then Some "This field is required"%string
  else Form.validateField h name value.

End Notions.

(* ===================================================================== *)
(** * Part II.  Properties                                                *)
(* ===================================================================== *)

(** ** The calendar *)

(** Case analysis on the month table: one case per [<?] of MonthFromTime. *)
Ltac month_cases :=
  repeat match goal with
  | |- context [(?a <? ?b)%Z] => destruct (Z.ltb_spec a b)
  | H : context [(?a <? ?b)%Z] |- _ => destruct (Z.ltb_spec a b)
  end.

Section Calendar.
Open Scope Z_scope.

Lemma mod100_mod4 y : y mod 100 = 0 -> y mod 4 = 0.
Proof.
  intros H. assert (E : y = 25 * (y / 100) * 4) by lia.
  rewrite E. apply Z_mod_mult.
Qed.

Lemma mod400_mod100 y : y mod 400 = 0 -> y mod 100 = 0.
Proof.
  intros H. assert (E : y = 4 * (y / 400) * 100) by lia.
  rewrite E. apply Z_mod_mult.
Qed.

Lemma DaysInYear_cases y : DaysInYear y = 365 \/ DaysInYear y = 366.
Proof.
  unfold DaysInYear.
  repeat match goal with |- context [negb (?a =? ?b)] =>
    destruct (Z.eqb_spec a b); cbn [negb] end; auto.
Qed.

Lemma div4_step y :
  (y + 1 - 1969) / 4 = (y - 1969) / 4 + (if y mod 4 =? 0 then 1 else 0).
Proof. destruct (Z.eqb_spec (y mod 4) 0); lia. Qed.

Lemma div100_step y :
  (y + 1 - 1901) / 100 = (y - 1901) / 100 + (if y mod 100 =? 0 then 1 else 0).
Proof. destruct (Z.eqb_spec (y mod 100) 0); lia. Qed.

Lemma div400_step y :
  (y + 1 - 1601) / 400 = (y - 1601) / 400 + (if y mod 400 =? 0 then 1 else 0).
Proof. destruct (Z.eqb_spec (y mod 400) 0); lia. Qed.

(** A year is as long as [DaysInYear] says. *)
Lemma DayFromYear_succ y : DayFromYear (y + 1) = DayFromYear y + DaysInYear y.
Proof.
  unfold DayFromYear, DaysInYear.
  rewrite div4_step, div100_step, div400_step.
  destruct (Z.eqb_spec (y mod 4) 0) as [E4|E4];
  destruct (Z.eqb_spec (y mod 100) 0) as [E100|E100];
  destruct (Z.eqb_spec (y mod 400) 0) as [E400|E400]; cbn [negb]; try lia;
  try (apply mod100_mod4 in E100; lia); try (apply mod400_mod100 in E400; lia).
Qed.

Lemma DayFromYear_pred y : DayFromYear y = DayFromYear (y - 1) + DaysInYear (y - 1).
Proof. rewrite <- DayFromYear_succ. f_equal. lia. Qed.

Lemma DayFromYear_lt_succ y : DayFromYear y < DayFromYear (y + 1).
Proof. rewrite DayFromYear_succ. destruct (DaysInYear_cases y); lia. Qed.

(** Years start at least 365 days apart. *)
Lemma DayFromYear_gap y k : 0 <= k -> DayFromYear y + 365 * k <= DayFromYear (y + k).
Proof.
  intros Hk. pattern k. apply natlike_ind; [| |exact Hk].
  - replace (y + 0) with y by lia. lia.
  - clear k Hk. intros k Hk IH. replace (y + Z.succ k) with (y + k + 1) by lia.
    rewrite DayFromYear_succ. destruct (DaysInYear_cases (y + k)); lia.
Qed.

Lemma DayFromYear_lt y1 y2 : y1 < y2 -> DayFromYear y1 < DayFromYear y2.
Proof.
  intros H. pose proof (DayFromYear_gap y1 (y2 - y1) ltac:(lia)) as G.
  replace (y1 + (y2 - y1)) with y2 in G by lia. lia.
Qed.

Lemma DayFromYear_le y1 y2 : y1 <= y2 -> DayFromYear y1 <= DayFromYear y2.
Proof.
  intros H. destruct (Z.eq_dec y1 y2) as [->|]; [lia|].
  apply Z.lt_le_incl, DayFromYear_lt. lia.
Qed.

Lemma DayFromYear_bounds y :
  146097 * (y - 1970) - 506 <= 400 * DayFromYear y <= 146097 * (y - 1970) + 589.
Proof. unfold DayFromYear. lia. Qed.

(** [YearFromDay d] is the year whose days include [d]. *)
Lemma YearFromDay_spec d :
  DayFromYear (YearFromDay d) <= d < DayFromYear (YearFromDay d + 1).
Proof.
  unfold YearFromDay. cbv zeta.
  set (y0 := 1970 + 400 * d / 146097).
  assert (H0 : 146097 * (y0 - 1970) <= 400 * d < 146097 * (y0 - 1970) + 146097)
    by (subst y0; lia).
  pose proof (DayFromYear_bounds (y0 - 1)) as B1.
  pose proof (DayFromYear_bounds (y0 + 2)) as B2.
  clearbody y0.
  destruct (Z.leb_spec (DayFromYear (y0 + 1)) d).
  - replace (y0 + 1 + 1) with (y0 + 2) by lia. lia.
  - destruct (Z.leb_spec (DayFromYear y0) d).
    + lia.
    + replace (y0 - 1 + 1) with y0 by lia. lia.
Qed.

Lemma YearFromDay_unique d y :
  DayFromYear y <= d < DayFromYear (y + 1) -> YearFromDay d = y.
Proof.
  intros [Hlo Hhi]. destruct (YearFromDay_spec d) as [Slo Shi].
  destruct (Z.lt_trichotomy (YearFromDay d) y) as [L|[E|G]]; [|exact E|].
  - pose proof (DayFromYear_le (YearFromDay d + 1) y ltac:(lia)). lia.
  - pose proof (DayFromYear_le (y + 1) (YearFromDay d) ltac:(lia)). lia.
Qed.

(** The characterisation ECMA-262 gives of YearFromTime: the largest year
    that starts at or before [t]. *)
Lemma YearFromTime_largest t :
  TimeFromYear (YearFromTime t) <= t /\
  forall y, TimeFromYear y <= t -> y <= YearFromTime t.
Proof.
  unfold TimeFromYear, YearFromTime.
  destruct (YearFromDay_spec (Day t)) as [Slo Shi].
  assert (Hd : msPerDay * Day t <= t < msPerDay * Day t + msPerDay)
    by (unfold Day, msPerDay; lia).
  split.
  - unfold msPerDay in *. lia.
  - intros y Hy.
    destruct (Z_le_gt_dec y (YearFromDay (Day t))) as [|G]; [assumption|].
    pose proof (DayFromYear_le (YearFromDay (Day t) + 1) y ltac:(lia)).
    unfold msPerDay in *. lia.
Qed.

Lemma YearFromDay_mono d1 d2 : d1 <= d2 -> YearFromDay d1 <= YearFromDay d2.
Proof.
  intros H. destruct (YearFromDay_spec d1) as [L1 U1].
  destruct (YearFromDay_spec d2) as [L2 U2].
  destruct (Z_le_gt_dec (YearFromDay d1) (YearFromDay d2)) as [|G]; [assumption|].
  pose proof (DayFromYear_le (YearFromDay d2 + 1) (YearFromDay d1) ltac:(lia)). lia.
Qed.

Lemma Day_mono t1 t2 : t1 <= t2 -> Day t1 <= Day t2.
Proof. unfold Day, msPerDay. lia. Qed.

Lemma YearFromTime_mono t1 t2 : t1 <= t2 -> YearFromTime t1 <= YearFromTime t2.
Proof. intros H. apply YearFromDay_mono, Day_mono, H. Qed.

Lemma DayWithinYear_range t :
  0 <= DayWithinYear t < DaysInYear (YearFromTime t).
Proof.
  unfold DayWithinYear, YearFromTime.
  pose proof (YearFromDay_spec (Day t)) as S.
  rewrite DayFromYear_succ in S. lia.
Qed.

Lemma InLeapYear_DaysInYear t : DaysInYear (YearFromTime t) = 365 + InLeapYear t.
Proof.
  unfold InLeapYear. destruct (DaysInYear_cases (YearFromTime t)) as [E|E];
    rewrite E; reflexivity.
Qed.

Lemma InLeapYear_cases t : InLeapYear t = 0 \/ InLeapYear t = 1.
Proof. unfold InLeapYear. destruct (_ =? _); auto. Qed.

Lemma MonthFromTime_range t : 0 <= MonthFromTime t <= 11.
Proof. unfold MonthFromTime. cbv zeta. month_cases; lia. Qed.

Lemma DateFromTime_range t : 1 <= DateFromTime t <= 31.
Proof.
  pose proof (DayWithinYear_range t) as R. rewrite InLeapYear_DaysInYear in R.
  destruct (InLeapYear_cases t) as [L|L];
    unfold DateFromTime, MonthFromTime; cbv zeta; rewrite L in *;
    month_cases; cbv iota; lia.
Qed.

(** The day within the year, recovered from the month and the date. *)
Lemma DaysBeforeMonth_fields t :
  DaysBeforeMonth (MonthFromTime t) (InLeapYear t) + DateFromTime t - 1
  = DayWithinYear t.
Proof.
  pose proof (DayWithinYear_range t) as R. rewrite InLeapYear_DaysInYear in R.
  unfold DateFromTime, MonthFromTime. cbv zeta.
  month_cases; cbv iota beta delta [DaysBeforeMonth]; lia.
Qed.

(** MakeDay inverts the three calendar fields of a time value. *)
Lemma MakeDay_fields t :
  MakeDay (YearFromTime t) (MonthFromTime t) (DateFromTime t) = Day t.
Proof.
  pose proof (MonthFromTime_range t) as M.
  unfold MakeDay. cbv zeta.
  replace (MonthFromTime t / 12) with 0 by lia.
  replace (MonthFromTime t mod 12) with (MonthFromTime t) by lia.
  rewrite Z.add_0_r.
  change (if DaysInYear (YearFromTime t) =? 366 then 1 else 0) with (InLeapYear t).
  pose proof (DaysBeforeMonth_fields t) as F. unfold DayWithinYear in F. lia.
Qed.

(** The fields of the following day: the next date of the month, the first
    of the next month, or the first of January of the next year. *)
Lemma next_day_fields t1 t2 :
  Day t2 = Day t1 + 1 ->
  (YearFromTime t2 = YearFromTime t1 /\ MonthFromTime t2 = MonthFromTime t1
     /\ DateFromTime t2 = DateFromTime t1 + 1)
  \/ (YearFromTime t2 = YearFromTime t1 /\ MonthFromTime t2 = MonthFromTime t1 + 1
     /\ DateFromTime t2 = 1)
  \/ (YearFromTime t2 = YearFromTime t1 + 1 /\ MonthFromTime t1 = 11
     /\ MonthFromTime t2 = 0 /\ DateFromTime t2 = 1).
Proof.
  intros Hd.
  pose proof (DayWithinYear_range t1) as R1.
  pose proof (YearFromDay_spec (Day t1)) as S1. fold (YearFromTime t1) in S1.
  rewrite DayFromYear_succ in S1.
  destruct (Z_lt_ge_dec (DayWithinYear t1 + 1) (DaysInYear (YearFromTime t1))) as [In|Out].
  - (* the same year *)
    assert (Y : YearFromTime t2 = YearFromTime t1).
    { unfold YearFromTime at 1. apply YearFromDay_unique.
      rewrite DayFromYear_succ. unfold DayWithinYear in In. lia. }
    assert (L : InLeapYear t2 = InLeapYear t1) by (unfold InLeapYear; now rewrite Y).
    assert (W : DayWithinYear t2 = DayWithinYear t1 + 1)
      by (unfold DayWithinYear; rewrite Y; lia).
    rewrite InLeapYear_DaysInYear in In, R1.
    destruct (InLeapYear_cases t1) as [L1|L1];
      unfold DateFromTime, MonthFromTime; cbv zeta; rewrite Y, L, W, L1 in *;
      month_cases; cbv iota; lia.
  - (* the last day of the year *)
    assert (Y : YearFromTime t2 = YearFromTime t1 + 1).
    { unfold YearFromTime at 1. apply YearFromDay_unique.
      rewrite !DayFromYear_succ. unfold DayWithinYear in Out, R1.
      destruct (DaysInYear_cases (YearFromTime t1));
        destruct (DaysInYear_cases (YearFromTime t1 + 1)); lia. }
    assert (W : DayWithinYear t2 = 0).
    { unfold DayWithinYear. rewrite Y, DayFromYear_succ.
      unfold DayWithinYear in Out, R1. lia. }
    rewrite InLeapYear_DaysInYear in Out, R1.
    right. right. split; [exact Y|].
    destruct (InLeapYear_cases t1) as [L1|L1];
    destruct (InLeapYear_cases t2) as [L2|L2];
      unfold DateFromTime, MonthFromTime; cbv zeta; rewrite W, L1, L2 in *;
      month_cases; cbv iota; lia.
Qed.

End Calendar.

(** ** The matcher *)

Section Matcher.
Import RegExp.

Lemma lang_empty_inv s : lang REmpty s -> False.
Proof. intros H. inversion H. Qed.

Lemma lang_eps_inv s : lang REps s -> s = [].
Proof. intros H. now inversion H. Qed.

Lemma lang_class_inv neg rs s :
  lang (RClass neg rs) s -> exists c, s = [c] /\ class_matches neg rs c = true.
Proof. intros H. inversion H; subst. eauto. Qed.

Lemma lang_seq_inv r1 r2 s :
  lang (RSeq r1 r2) s -> exists s1 s2, s = s1 ++ s2 /\ lang r1 s1 /\ lang r2 s2.
Proof. intros H. inversion H; subst. eauto. Qed.

Lemma lang_alt_inv r1 r2 s : lang (RAlt r1 r2) s -> lang r1 s \/ lang r2 s.
Proof. intros H. inversion H; subst; auto. Qed.

Lemma nullable_lang r : nullable r = true <-> lang r [].
Proof.
  split.
  - induction r; cbn; intros H; try discriminate.
    + constructor.
    + apply andb_true_iff in H as [H1 H2].
      change (@nil N) with (@nil N ++ @nil N). constructor; auto.
    + apply orb_true_iff in H as [H|H]; [apply lang_alt_l|apply lang_alt_r]; auto.
    + constructor.
  - induction r; cbn; intros H; auto.
    + now apply lang_empty_inv in H.
    + apply lang_class_inv in H as (c & E & _). discriminate.
    + apply lang_seq_inv in H as (s1 & s2 & E & H1 & H2).
      symmetry in E. apply app_eq_nil in E as [-> ->].
      rewrite IHr1, IHr2; auto.
    + apply lang_alt_inv in H as [H|H]; [rewrite IHr1|rewrite IHr2];
        auto using orb_true_r.
Qed.

(** A nonempty word of [r*] starts with a nonempty word of [r]. *)
Lemma lang_star_cons_inv r c s :
  lang (RStar r) (c :: s) ->
  exists s1 s2, s = s1 ++ s2 /\ lang r (c :: s1) /\ lang (RStar r) s2.
Proof.
  intros H. remember (RStar r) as r' eqn:Er. remember (c :: s) as w eqn:Ew.
  induction H; try discriminate.
  inversion Er; subst r0. destruct s1 as [|c1 s1].
  - cbn in Ew. apply IHlang2; auto.
  - cbn in Ew. inversion Ew; subst. exists s1, s2. auto.
Qed.

Lemma lang_seq_cons r1 r2 c s1 s2 :
  lang r1 (c :: s1) -> lang r2 s2 -> lang (RSeq r1 r2) (c :: s1 ++ s2).
Proof. intros H1 H2. change (c :: s1 ++ s2) with ((c :: s1) ++ s2). now constructor. Qed.

Lemma deriv_lang c r s : lang (deriv c r) s <-> lang r (c :: s).
Proof.
  revert s. induction r; intros s; cbn.
  - split; intros H; now apply lang_empty_inv in H.
  - split; intros H; [now apply lang_empty_inv in H|].
    apply lang_eps_inv in H. discriminate.
  - destruct (class_matches negated ranges c) eqn:E; split; intros H.
    + apply lang_eps_inv in H as ->. now constructor.
    + apply lang_class_inv in H as (c' & E' & _). inversion E'; subst. constructor.
    + now apply lang_empty_inv in H.
    + apply lang_class_inv in H as (c' & E' & M). inversion E'; subst. congruence.
  - assert (Hseq : lang (RSeq (deriv c r1) r2) s -> lang (RSeq r1 r2) (c :: s)).
    { intros H. apply lang_seq_inv in H as (s1 & s2 & -> & H1 & H2).
      apply lang_seq_cons; [apply IHr1|]; auto. }
    assert (Hinv : lang (RSeq r1 r2) (c :: s) ->
                   lang (RSeq (deriv c r1) r2) s \/ (lang r1 [] /\ lang r2 (c :: s))).
    { intros H. apply lang_seq_inv in H as (s1 & s2 & E & H1 & H2).
      destruct s1 as [|c1 s1]; cbn in E.
      - subst s2. right. auto.
      - inversion E; subst. left. constructor; [apply IHr1|]; auto. }
    destruct (nullable r1) eqn:N.
    + split; intros H.
      * apply lang_alt_inv in H as [H|H]; [auto|].
        change (c :: s) with ([] ++ c :: s). constructor; [|apply IHr2; auto].
        now apply nullable_lang.
      * apply Hinv in H as [H|[_ H]]; [now apply lang_alt_l|].
        apply lang_alt_r. now apply IHr2.
    + split; intros H; [auto|].
      apply Hinv in H as [H|[H _]]; [auto|].
      apply nullable_lang in H. congruence.
  - split; intros H.
    + apply lang_alt_inv in H as [H|H];
        [apply lang_alt_l, IHr1|apply lang_alt_r, IHr2]; auto.
    + apply lang_alt_inv in H as [H|H];
        [apply lang_alt_l, IHr1|apply lang_alt_r, IHr2]; auto.
  - split; intros H.
    + apply lang_seq_inv in H as (s1 & s2 & -> & H1 & H2).
      change (c :: s1 ++ s2) with ((c :: s1) ++ s2).
      constructor; [apply IHr|]; auto.
    + apply lang_star_cons_inv in H as (s1 & s2 & -> & H1 & H2).
      constructor; [apply IHr|]; auto.
Qed.

(** The matcher decides membership in the language of the pattern. *)
Lemma matches_lang r s : matches r s = true <-> lang r s.
Proof.
  revert r. induction s as [|c s IH]; intros r; cbn.
  - apply nullable_lang.
  - rewrite IH. apply deriv_lang.
Qed.

End Matcher.

(** ** What the literals of the validators accept *)

Section Literals.
Import RegExp Spec.

Lemma lang_star_class neg rs s :
  lang (RStar (RClass neg rs)) s <-> Forall (fun c => class_matches neg rs c = true) s.
Proof.
  split.
  - induction s as [|c s IH]; intros H; [constructor|].
    apply lang_star_cons_inv in H as (s1 & s2 & -> & H1 & H2).
    apply lang_class_inv in H1 as (c' & E & M). inversion E; subst.
    constructor; auto.
  - induction 1 as [|c s M _ IH]; [constructor|].
    change (c :: s) with ([c] ++ s). constructor; [now constructor|exact IH].
Qed.

Lemma lang_star_any s : lang (RStar RAny) s.
Proof. apply lang_star_class. apply Forall_forall. intros c _. reflexivity. Qed.

Lemma lang_plus_class neg rs s :
  lang (RPlus (RClass neg rs)) s <->
  s <> [] /\ Forall (fun c => class_matches neg rs c = true) s.
Proof.
  unfold RPlus. split.
  - intros H. apply lang_seq_inv in H as (s1 & s2 & -> & H1 & H2).
    apply lang_class_inv in H1 as (c & -> & M). apply lang_star_class in H2.
    split; [discriminate|]. constructor; auto.
  - intros [Hne H]. destruct s as [|c s]; [congruence|].
    inversion H; subst. change (c :: s) with ([c] ++ s).
    constructor; [now constructor|now apply lang_star_class].
Qed.

Lemma lang_repeat_class neg rs n s :
  lang (RRepeat n (RClass neg rs)) s <->
  length s = n /\ Forall (fun c => class_matches neg rs c = true) s.
Proof.
  revert s. induction n as [|n IH]; intros s; cbn [RRepeat].
  - split.
    + intros H. apply lang_eps_inv in H as ->. split; [reflexivity|constructor].
    + intros [L _]. destruct s; [constructor|discriminate].
  - split.
    + intros H. apply lang_seq_inv in H as (s1 & s2 & -> & H1 & H2).
      apply lang_class_inv in H1 as (c & -> & M). apply IH in H2 as [L F].
      split; [cbn; now f_equal|constructor; auto].
    + intros [L F]. destruct s as [|c s]; [discriminate|].
      inversion F; subst. change (c :: s) with ([c] ++ s).
      constructor; [now constructor|]. apply IH. split; [|assumption].
      cbn in L. now inversion L.
Qed.

Lemma lang_atleast_class neg rs n s :
  lang (RAtLeast n (RClass neg rs)) s <->
  (n <= length s)%nat /\ Forall (fun c => class_matches neg rs c = true) s.
Proof.
  unfold RAtLeast. split.
  - intros H. apply lang_seq_inv in H as (s1 & s2 & -> & H1 & H2).
    apply lang_repeat_class in H1 as [L F1]. apply lang_star_class in H2.
    split; [rewrite length_app; lia|]. apply Forall_app; auto.
  - intros [L F]. rewrite <- (firstn_skipn n s). rewrite <- (firstn_skipn n s) in F.
    apply Forall_app in F as [F1 F2]. constructor.
    + apply lang_repeat_class. split; [|assumption]. rewrite length_firstn. lia.
    + now apply lang_star_class.
Qed.

Lemma lang_char c s : lang (RChar c) s <-> s = [c].
Proof.
  unfold RChar. split.
  - intros H. apply lang_class_inv in H as (c' & -> & M).
    unfold class_matches, in_ranges in M. cbn in M.
    rewrite orb_false_r, andb_true_iff, !N.leb_le in M.
    f_equal. lia.
  - intros ->. constructor. unfold class_matches, in_ranges. cbn.
    rewrite orb_false_r, andb_true_iff, !N.leb_le. lia.
Qed.

(** [test]: some substring is in the language of the pattern; an anchor
    leaves nothing before, or nothing after, that substring. *)
Lemma test_spec re s :
  test re s = true <->
  exists before mid after,
    s = before ++ mid ++ after
    /\ (anchoredStart re = true -> before = [])
    /\ (anchoredEnd re = true -> after = [])
    /\ lang (pattern re) mid.
Proof.
  unfold test. rewrite matches_lang. split.
  - intros H. apply lang_seq_inv in H as (b & rest & -> & Hb & H).
    apply lang_seq_inv in H as (m & a & -> & Hm & Ha).
    exists b, m, a. repeat split; auto.
    + intros E. rewrite E in Hb. now apply lang_eps_inv in Hb.
    + intros E. rewrite E in Ha. now apply lang_eps_inv in Ha.
  - intros (b & m & a & -> & Hb & Ha & Hm).
    constructor; [|constructor; [exact Hm|]].
    + destruct (anchoredStart re); [rewrite Hb by reflexivity; constructor|apply lang_star_any].
    + destruct (anchoredEnd re); [rewrite Ha by reflexivity; constructor|apply lang_star_any].
Qed.

(** An anchored literal matches the whole string. *)
Lemma test_anchored p s : test (mkLiteral true p true) s = true <-> lang p s.
Proof.
  rewrite test_spec. cbn. split.
  - intros (b & m & a & -> & Hb & Ha & Hm).
    rewrite Hb, Ha by reflexivity. now rewrite app_nil_r.
  - intros H. exists [], s, []. rewrite app_nil_r. auto.
Qed.

Lemma Forall_equiv {A} (P Q : A -> Prop) :
  (forall x, P x <-> Q x) -> forall l, Forall P l <-> Forall Q l.
Proof. intros H l. apply Forall_iff, H. Qed.

Ltac class_solve :=
  unfold class_matches, in_ranges;
  cbn [existsb xorb digit letters nameChars emailLocalChars emailDomainChars app];
  rewrite ?orb_true_iff, ?andb_true_iff, ?N.leb_le, ?negb_true_iff;
  unfold nameChar, emailLocalChar, emailDomainChar, latinLetter, accentedLetter,
    asciiDigit, hyphen, dot, underscore, greaterThan;
  rewrite ?orb_false_iff, ?andb_false_iff, ?N.leb_gt; lia.

Lemma class_digit c : class_matches false digit c = true <-> asciiDigit c.
Proof. class_solve. Qed.

Lemma class_letters c : class_matches false letters c = true <-> latinLetter c.
Proof. class_solve. Qed.

Lemma class_nameChars c : class_matches false nameChars c = true <-> nameChar c.
Proof. class_solve. Qed.

Lemma class_emailLocal c :
  class_matches false emailLocalChars c = true <-> emailLocalChar c.
Proof. class_solve. Qed.

Lemma class_emailDomain c :
  class_matches false emailDomainChars c = true <-> emailDomainChar c.
Proof. class_solve. Qed.

Lemma class_notGreaterThan c :
  class_matches true [(62, 62)%N] c = true <-> c <> greaterThan.
Proof.
  unfold class_matches, in_ranges, greaterThan. cbn [existsb].
  destruct (N.leb_spec 62 c), (N.leb_spec c 62); cbn; split; intros; try lia;
    try discriminate; reflexivity.
Qed.

(** [/^\d{5}$/] accepts the strings of exactly five ASCII digits. *)
Lemma test_rePostCode s :
  test rePostCode s = true <-> length s = 5%nat /\ Forall asciiDigit s.
Proof.
  unfold rePostCode. rewrite test_anchored, lang_repeat_class.
  now rewrite (Forall_equiv _ asciiDigit class_digit).
Qed.

(** [/<[^>]*/] accepts the strings with an opening tag, which are the
    strings that contain a [<]. *)
Lemma test_reTag s : test reTag s = true <-> hasOpeningTag s.
Proof.
  rewrite test_spec. cbn. unfold hasOpeningTag. split.
  - intros (b & m & a & -> & _ & _ & H).
    apply lang_seq_inv in H as (s1 & run & -> & H1 & H2).
    apply lang_char in H1 as ->. apply lang_star_class in H2.
    exists b, run, a. split; [now rewrite <- app_assoc|].
    now rewrite (Forall_equiv _ (fun c => c <> greaterThan) class_notGreaterThan) in H2.
  - intros (b & run & a & -> & F).
    exists b, ([lessThan] ++ run), a. split; [now rewrite <- app_assoc|].
    repeat split; try discriminate.
    constructor; [now apply lang_char|]. apply lang_star_class.
    now rewrite (Forall_equiv _ (fun c => c <> greaterThan) class_notGreaterThan).
Qed.

Lemma hasOpeningTag_In s : hasOpeningTag s <-> In lessThan s.
Proof.
  split.
  - intros (b & run & a & -> & _). apply in_or_app. right. now left.
  - intros H. apply in_split in H as (b & a & ->).
    exists b, [], a. split; [reflexivity|constructor].
Qed.

(** [/^[A-Za-zÀ-ÖØ-öø-ÿ\-]+$/] accepts the nonempty strings of name
    characters. *)
Lemma test_reName s : test reName s = true <-> s <> [] /\ Forall nameChar s.
Proof.
  unfold reName. rewrite test_anchored, lang_plus_class.
  now rewrite (Forall_equiv _ nameChar class_nameChars).
Qed.

(** The email literal accepts the strings of the shape [local@domain.tld]. *)
Lemma test_reEmail s : test reEmail s = true <-> emailShape s.
Proof.
  unfold reEmail. rewrite test_anchored. unfold emailShape. split.
  - intros H.
    apply lang_seq_inv in H as (loc & r1 & -> & Hl & H).
    apply lang_seq_inv in H as (at' & r2 & -> & Ha & H).
    apply lang_seq_inv in H as (dom & r3 & -> & Hd & H).
    apply lang_seq_inv in H as (dot' & tld & -> & Hp & Ht).
    apply lang_char in Ha as ->. apply lang_char in Hp as ->.
    apply lang_plus_class in Hl as [Hl1 Hl2].
    apply lang_plus_class in Hd as [Hd1 Hd2].
    apply lang_atleast_class in Ht as [Ht1 Ht2].
    rewrite (Forall_equiv _ emailLocalChar) in Hl2 by apply class_emailLocal.
    rewrite (Forall_equiv _ emailDomainChar class_emailDomain) in Hd2.
    rewrite (Forall_equiv _ latinLetter class_letters) in Ht2.
    exists loc, dom, tld. repeat split; auto.
  - intros (loc & dom & tld & -> & Hl1 & Hl2 & Hd1 & Hd2 & Ht1 & Ht2).
    rewrite <- (Forall_equiv _ emailLocalChar) in Hl2 by apply class_emailLocal.
    rewrite <- (Forall_equiv _ emailDomainChar class_emailDomain) in Hd2.
    rewrite <- (Forall_equiv _ latinLetter class_letters) in Ht2.
    constructor; [now apply lang_plus_class|].
    constructor; [now apply lang_char|].
    constructor; [now apply lang_plus_class|].
    constructor; [now apply lang_char|].
    now apply lang_atleast_class.
Qed.

End Literals.

(** ** The age validator *)

Section AgeValidator.
Import Validator Spec.
Open Scope Z_scope.

(** The age between two well-formed dates, in calendar fields. *)
Lemma ageAt_fields h tn tb :
  ageAt h (VDate (Int tn)) (VDate (Int tb)) =
  Int (localYear h tn - localYear h tb
       - (if (localMonth h tb <? localMonth h tn)
             || ((localMonth h tn =? localMonth h tb)
                 && (localDate h tb <=? localDate h tn))
          then 0 else 1)).
Proof.
  unfold ageAt, getFullYear, getMonth, getDate, localYear, localMonth, localDate.
  cbn [getTime sub gt strict_eq ge].
  destruct (_ || _); cbn [negb sub]; f_equal; lia.
Qed.

(** The decrement is made exactly when the month and day of the reference
    date come before those of the birth date. *)
Lemma hasHadBirthday_lexLess mn dn mb db :
  (mb <? mn) || ((mn =? mb) && (db <=? dn)) = false <-> lexLess mn dn mb db.
Proof.
  unfold lexLess.
  destruct (Z.ltb_spec mb mn), (Z.eqb_spec mn mb), (Z.leb_spec db dn);
    cbn; split; intros; try discriminate; try lia; reflexivity.
Qed.

(** Local time keeps the order of time values. *)
Lemma localYear_mono h t1 t2 : t1 <= t2 -> localYear h t1 <= localYear h t2.
Proof. intros H. apply YearFromTime_mono. unfold LocalTime. lia. Qed.

Lemma validateAge_wellFormed h t :
  validateAge h (VDate (Int t)) =
  if clock h <? t then fail INVALID_DATE "Birth date cannot be in the future"
  else if lt (ageAt h (Date_now h) (VDate (Int t))) (Int 18)
       then fail INVALID_AGE "Must be at least 18 years old"
       else Ok tt.
Proof. reflexivity. Qed.

Lemma validateAge_malformed h d :
  ~ wellFormedDate d -> validateAge h d = fail INVALID_DATE "Birth date is invalid".
Proof.
  intros H. destruct d as [| | | | |[|t]|]; try reflexivity.
  exfalso. apply H. now exists t.
Qed.

(** C4.  validateAge fails with kind INVALID_DATE exactly on the inputs that
    are not a well-formed Date (not a Date object, or a Date whose time is
    NaN) or that are strictly later than the wall clock read at the call;
    on every other input it returns normally or fails with INVALID_AGE. *)
Theorem validateAge_invalid_date h d :
  ((exists m, validateAge h d = Throw (Thrown (Some INVALID_DATE) m))
   <-> (~ wellFormedDate d \/ laterThanNow h d))
  /\ (~ (~ wellFormedDate d \/ laterThanNow h d) ->
      validateAge h d = Ok tt
      \/ exists m, validateAge h d = Throw (Thrown (Some INVALID_AGE) m)).
Proof.
  assert (Cases : (exists t, d = VDate (Int t)) \/ ~ wellFormedDate d).
  { destruct d as [| | | | |[|t]|];
      try (right; intros [t' E]; discriminate).
    left. now exists t. }
  destruct Cases as [[t ->]|Bad].
  - rewrite validateAge_wellFormed.
    destruct (Z.ltb_spec (clock h) t) as [Late|Early].
    + split.
      * split; [|intros _; eexists; reflexivity].
        intros _. right. exists t. auto.
      * intros H. exfalso. apply H. right. exists t. auto.
    + destruct (lt _ _).
      * split; [|intros _; right; eexists; reflexivity].
        split.
        -- intros [m E]. discriminate.
        -- intros [W|(t' & E & L)]; [exfalso; apply W; now exists t|].
           inversion E; subst. lia.
      * split; [|intros _; now left].
        split.
        -- intros [m E]. discriminate.
        -- intros [W|(t' & E & L)]; [exfalso; apply W; now exists t|].
           inversion E; subst. lia.
  - rewrite (validateAge_malformed h d Bad). split.
    + split; [intros _; now left|intros _; eexists; reflexivity].
    + intros H. exfalso. apply H. now left.
Qed.

(** C5.  A birth date exactly eighteen years before now, with the month and
    the day of the month of now, passes validateAge (the day of the
    anniversary counts as the birthday having occurred); a birth date on the
    calendar day after that one fails with kind INVALID_AGE. *)
Theorem validateAge_eighteenth_birthday h tb tb' :
  localYear h tb = localYear h (clock h) - 18 ->
  localMonth h tb = localMonth h (clock h) ->
  localDate h tb = localDate h (clock h) ->
  localDay h tb' = localDay h tb + 1 ->
  validateAge h (VDate (Int tb)) = Ok tt
  /\ validateAge h (VDate (Int tb')) = fail INVALID_AGE "Must be at least 18 years old".
Proof.
  intros Hy Hm Hd Hnext.
  assert (Before : forall t, localYear h t < localYear h (clock h) -> (clock h <? t) = false).
  { intros t Ht. apply Z.ltb_ge.
    destruct (Z_le_gt_dec t (clock h)) as [|G]; [assumption|].
    pose proof (localYear_mono h (clock h) t ltac:(lia)). lia. }
  split.
  - rewrite validateAge_wellFormed, Before by lia.
    unfold Date_now. rewrite ageAt_fields, Hy, Hm, Hd.
    rewrite Z.ltb_irrefl, Z.eqb_refl, Z.leb_refl. cbn [orb andb lt].
    replace (_ <? 18) with false; [reflexivity|]. symmetry. apply Z.ltb_ge. lia.
  - destruct (next_day_fields (LocalTime h tb) (LocalTime h tb') Hnext)
      as [(Y & M & D)|[(Y & M & D)|(Y & M1 & M & D)]];
      fold (localYear h tb') (localYear h tb) in Y;
      fold (localMonth h tb') (localMonth h tb) in M;
      fold (localDate h tb') (localDate h tb) in D.
    + rewrite validateAge_wellFormed, Before by lia.
      unfold Date_now. rewrite ageAt_fields, Y, M, D, Hy, Hm, Hd.
      rewrite Z.ltb_irrefl, Z.eqb_refl. cbn [orb andb].
      replace (_ <=? _) with false by (symmetry; apply Z.leb_gt; lia).
      cbn [lt]. replace (_ <? 18) with true; [reflexivity|].
      symmetry. apply Z.ltb_lt. lia.
    + rewrite validateAge_wellFormed, Before by lia.
      unfold Date_now. rewrite ageAt_fields, Y, M, Hy, Hm.
      replace (_ <? localMonth h (clock h)) with false
        by (symmetry; apply Z.ltb_ge; lia).
      replace (localMonth h (clock h) =? _) with false
        by (symmetry; apply Z.eqb_neq; lia).
      cbn [orb andb lt]. replace (_ <? 18) with true; [reflexivity|].
      symmetry. apply Z.ltb_lt. lia.
    + fold (localMonth h tb) in M1.
      rewrite validateAge_wellFormed, Before by lia.
      unfold Date_now. rewrite ageAt_fields, Y, M, Hy.
      replace (0 <? localMonth h (clock h)) with true
        by (symmetry; apply Z.ltb_lt; lia).
      cbn [orb lt]. replace (_ <? 18) with true; [reflexivity|].
      symmetry. apply Z.ltb_lt. lia.
Qed.

End AgeValidator.

(** ** The age calculator *)

Section AgeCalculator.
Import Validator Spec.
Open Scope Z_scope.

Lemma Day_start d : Day (d * msPerDay) = d.
Proof. unfold Day, msPerDay. lia. Qed.

(** The calendar fields depend on the day number only. *)
Lemma fields_of_Day t1 t2 :
  Day t1 = Day t2 ->
  YearFromTime t1 = YearFromTime t2
  /\ MonthFromTime t1 = MonthFromTime t2
  /\ DateFromTime t1 = DateFromTime t2.
Proof.
  intros H.
  unfold DateFromTime, MonthFromTime, InLeapYear, DayWithinYear, YearFromTime.
  now rewrite H.
Qed.

(** Every time value falls on a date of the calendar. *)
Lemma fields_onCalendar t :
  onCalendar (YearFromTime t) (MonthFromTime t) (DateFromTime t).
Proof.
  pose proof (DayWithinYear_range t) as R. rewrite InLeapYear_DaysInYear in R.
  unfold onCalendar. split; [apply MonthFromTime_range|].
  unfold daysInMonth. rewrite InLeapYear_DaysInYear.
  destruct (InLeapYear_cases t) as [L|L];
    unfold DateFromTime, MonthFromTime; cbv zeta; rewrite L in *;
    [change (365 + 0 =? 366) with false|change (365 + 1 =? 366) with true];
    month_cases; cbv iota; lia.
Qed.

(** The Date rebuilt from the fields of a birth date of 1970 or later is the
    local midnight of the same day. *)
Lemma existingDate_midnight h tb :
  plausibleZone h -> timeValue tb -> 1970 <= localYear h tb ->
  existingDate h (VDate (Int tb)) = VDate (Int (UTC h (localDay h tb * msPerDay))).
Proof.
  unfold plausibleZone, timeValue, localYear, localDay. intros Hz Ht Hy.
  unfold existingDate, getFullYear, getMonth, getDate. cbn [getTime].
  unfold Date_ofFields.
  replace (_ && _) with false.
  2:{ symmetry. apply andb_false_iff. right. apply Z.leb_gt. lia. }
  rewrite MakeDay_fields. unfold MakeDate, MakeTime. rewrite Z.add_0_r.
  unfold TimeClip.
  replace (_ <=? maxTime) with true; [reflexivity|].
  symmetry. apply Z.leb_le.
  assert (0 <= Day (LocalTime h tb)).
  { pose proof (YearFromDay_spec (Day (LocalTime h tb))) as [S _].
    fold (YearFromTime (LocalTime h tb)) in S.
    pose proof (DayFromYear_le 1970 _ Hy) as G.
    change (DayFromYear 1970) with 0 in G. lia. }
  assert (Day (LocalTime h tb) * msPerDay <= LocalTime h tb)
    by (unfold Day, msPerDay; lia).
  unfold UTC, LocalTime, msPerDay, maxTime in *. lia.
Qed.

Lemma notOnCalendar_false h tb :
  plausibleZone h -> timeValue tb -> 1970 <= localYear h tb ->
  notOnCalendar h (VDate (Int tb)) = false.
Proof.
  intros Hz Ht Hy. unfold notOnCalendar.
  rewrite (existingDate_midnight h tb Hz Ht Hy).
  unfold getFullYear, getMonth, getDate. cbn [getTime].
  destruct (fields_of_Day (LocalTime h (UTC h (localDay h tb * msPerDay)))
              (LocalTime h tb)) as (Y & M & D).
  { unfold LocalTime at 1, UTC. rewrite Z.sub_add. apply Day_start. }
  rewrite Y, M, D. unfold strict_ne, strict_eq. now rewrite !Z.eqb_refl.
Qed.

(** calculateAge, case by case. *)

Lemma calculateAge_absent h p cd :
  ToBoolean p = false -> Part000.calculateAge h p cd = Throw missingParam.
Proof. intros H. unfold Part000.calculateAge. now rewrite H. Qed.

Lemma calculateAge_no_birth h p cd :
  ToBoolean p = true -> has_property "birth" p = Ok false ->
  Part000.calculateAge h p cd = Throw missingBirth.
Proof. intros H B. unfold Part000.calculateAge. now rewrite H, B. Qed.

Lemma calculateAge_not_a_date h p cd :
  ToBoolean p = true -> has_property "birth" p = Ok true ->
  ~ wellFormedDate (get_property "birth" p) ->
  Part000.calculateAge h p cd = Throw notADate.
Proof.
  intros H B W. unfold Part000.calculateAge. rewrite H, B. cbn [negb].
  destruct (get_property "birth" p) as [| | | | |[|t]|]; try reflexivity.
  exfalso. apply W. now exists t.
Qed.

Lemma calculateAge_date h p cd tb :
  ToBoolean p = true -> has_property "birth" p = Ok true ->
  get_property "birth" p = VDate (Int tb) ->
  Part000.calculateAge h p cd =
  if localYear h tb <? 1970 then Throw invalidDate
  else if gt (Int tb) (referenceTime h cd) then Throw invalidDate
  else if notOnCalendar h (VDate (Int tb)) then Throw invalidDate
  else Ok (ageAt h (VDate (referenceTime h cd)) (VDate (Int tb))).
Proof.
  intros H B E. unfold Part000.calculateAge. rewrite H, B, E.
  destruct cd; reflexivity.
Qed.









(** In a zone less than a day from UTC the local day is the UTC day, the
    day before or the day after. *)
Lemma local_fields_cases h t :
  plausibleZone h ->
  exists d, (d = Day t - 1 \/ d = Day t \/ d = Day t + 1)
    /\ localYear h t = YearFromTime (d * msPerDay)
    /\ localMonth h t = MonthFromTime (d * msPerDay)
    /\ localDate h t = DateFromTime (d * msPerDay).
Proof.
  unfold plausibleZone. intros Hz. exists (localDay h t). split.
  - unfold localDay, LocalTime, Day, msPerDay in *. lia.
  - apply fields_of_Day. now rewrite Day_start.
Qed.

(** C1.  For a person whose birth is a valid Date of 1970 or later, not
    after the reference date and on the calendar, calculateAge returns the
    difference of the years, less one exactly when the month and day of the
    reference date come before those of the birth date; a birth of
    1991-11-07 and a reference date of 2026-12-01 give 35 in every zone. *)
Theorem calculateAge_whole_years :
  (forall h props currentDate tb tc,
      plausibleZone h ->
      lookup_prop "birth" props = Some (VDate (Int tb)) ->
      timeValue tb ->
      1970 <= localYear h tb ->
      referenceTime h currentDate = Int tc ->
      tb <= tc ->
      onCalendar (localYear h tb) (localMonth h tb) (localDate h tb) ->
      exists age,
        Part000.calculateAge h (VObject props) currentDate = Ok (Int age)
        /\ (lexLess (localMonth h tc) (localDate h tc)
                    (localMonth h tb) (localDate h tb) ->
            age = localYear h tc - localYear h tb - 1)
        /\ (~ lexLess (localMonth h tc) (localDate h tc)
                      (localMonth h tb) (localDate h tb) ->
            age = localYear h tc - localYear h tb))
  /\ (forall h,
      plausibleZone h ->
      Part000.calculateAge h
        (VObject [("birth"%string, VDate (SampleHost.isoDateParse (str "1991-11-07")))])
        (Some (SampleHost.isoDateParse (str "2026-12-01")))
      = Ok (Int 35)).
Proof.
  split.
  - intros h props cd tb tc Hz Hl Ht Hy Hr Hle _.
    rewrite (calculateAge_date h (VObject props) cd tb); cycle 1.
    { reflexivity. }
    { cbn [has_property]. now rewrite Hl. }
    { cbn [get_property]. now rewrite Hl. }
    replace (localYear h tb <? 1970) with false by (symmetry; apply Z.ltb_ge; lia).
    rewrite Hr. cbn [gt].
    replace (tc <? tb) with false by (symmetry; apply Z.ltb_ge; lia).
    rewrite notOnCalendar_false by assumption.
    rewrite ageAt_fields. eexists. split; [reflexivity|].
    split; intros L.
    + apply hasHadBirthday_lexLess in L. rewrite L. lia.
    + destruct (_ || _) eqn:B; [lia|].
      apply hasHadBirthday_lexLess in B. contradiction.
  - intros h Hz.
    change (SampleHost.isoDateParse (str "1991-11-07")) with (Int 689472000000).
    change (SampleHost.isoDateParse (str "2026-12-01")) with (Int 1796083200000).
    destruct (local_fields_cases h 689472000000 Hz) as (db & Cb & Yb & Mb & Db).
    destruct (local_fields_cases h 1796083200000 Hz) as (dc & Cc & Yc & Mc & Dc).
    change (Day 689472000000) with 7980 in Cb.
    change (Day 1796083200000) with 20788 in Cc.
    rewrite (calculateAge_date h _ _ 689472000000) by reflexivity.
    cbn [referenceTime gt].
    rewrite notOnCalendar_false; [|assumption|unfold timeValue, maxTime; lia|].
    + rewrite ageAt_fields, Yb, Mb, Db, Yc, Mc, Dc.
      destruct Cb as [-> | [-> | ->]]; destruct Cc as [-> | [-> | ->]]; reflexivity.
    + rewrite Yb. destruct Cb as [-> | [-> | ->]]; vm_compute; discriminate.
Qed.

(** The wall-clock copy, on a subject with a well-formed birth date. *)
Lemma wallclock_calculateAge_date h p tb :
  ToBoolean p = true -> has_property "birth" p = Ok true ->
  get_property "birth" p = VDate (Int tb) ->
  SrcModule.calculateAge h p =
  if localYear h tb <? 1970 then Throw invalidDate
  else if clock h <? tb then Throw invalidDate
  else if notOnCalendar h (VDate (Int tb)) then Throw invalidDate
  else Ok (Math_abs (sub (getUTCFullYear (Date_ofNumber (Int (clock h - tb))))
                         (Int 1970))).
Proof. intros H B E. unfold SrcModule.calculateAge. now rewrite H, B, E. Qed.

(** C10.  In both copies of calculateAge the calendar check cannot fail:
    for a birth Date that passed the guards before it (a valid Date, of
    1970 or later), the Date rebuilt from its year, month and day has the
    same three fields, so both copies go on to return their age. *)
Theorem calendar_check_unreachable h tb :
  plausibleZone h -> timeValue tb ->
  lt (getFullYear h (VDate (Int tb))) (Int 1970) = false ->
  notOnCalendar h (VDate (Int tb)) = false
  /\ (forall props currentDate,
        lookup_prop "birth" props = Some (VDate (Int tb)) ->
        gt (Int tb) (referenceTime h currentDate) = false ->
        Part000.calculateAge h (VObject props) currentDate
        = Ok (ageAt h (VDate (referenceTime h currentDate)) (VDate (Int tb))))
  /\ (forall props,
        lookup_prop "birth" props = Some (VDate (Int tb)) ->
        gt (Int tb) (getTime (Date_now h)) = false ->
        SrcModule.calculateAge h (VObject props)
        = Ok (Math_abs (sub (getUTCFullYear (Date_ofNumber (Int (clock h - tb))))
                            (Int 1970)))).
Proof.
  intros Hz Ht Hy.
  assert (Y : (localYear h tb <? 1970) = false) by exact Hy.
  assert (C : notOnCalendar h (VDate (Int tb)) = false).
  { apply notOnCalendar_false; try assumption. now apply Z.ltb_ge. }
  split; [exact C|]. split.
  - intros props cd Hl Hg.
    rewrite (calculateAge_date h (VObject props) cd tb); cycle 1.
    { reflexivity. }
    { cbn [has_property]. now rewrite Hl. }
    { cbn [get_property]. now rewrite Hl. }
    now rewrite Y, Hg, C.
  - intros props Hl Hg.
    rewrite (wallclock_calculateAge_date h (VObject props) tb); cycle 1.
    { reflexivity. }
    { cbn [has_property]. now rewrite Hl. }
    { cbn [get_property]. now rewrite Hl. }
    cbn [Date_now getTime gt] in Hg. now rewrite Y, Hg, C.
Qed.

(** C3, as amended.  The copy of calculateAge that reads the wall clock
    ([src/module.js]) makes the same checks as the copy with a reference
    date ([src/unnamed/part_000]) does against the wall clock, the guard on
    years before 1970 and the calendar check included: it fails exactly when
    the other copy, called without a reference date, fails, and with the
    same error.  Where it returns, its age is the UTC year of the Date built
    from the elapsed milliseconds, minus 1970, where the other copy returns
    the age in calendar fields. *)
Theorem wallclock_calculateAge_same_guards h p :
  (forall e, SrcModule.calculateAge h p = Throw e
             <-> Part000.calculateAge h p None = Throw e)
  /\ (forall age, SrcModule.calculateAge h p = Ok age <->
        exists tb,
          get_property "birth" p = VDate (Int tb)
          /\ Part000.calculateAge h p None
             = Ok (ageAt h (Date_now h) (VDate (Int tb)))
          /\ age = Math_abs (sub (getUTCFullYear (Date_ofNumber (Int (clock h - tb))))
                                 (Int 1970))).
Proof.
  unfold SrcModule.calculateAge, Part000.calculateAge.
  destruct (ToBoolean p); cbn [negb].
  2:{ split; [reflexivity|]. intros age. split; [discriminate|].
      intros (tb & _ & E & _). discriminate. }
  destruct (has_property "birth" p) as [[|]|e'].
  2,3: split; [reflexivity|]; intros age; (split; [discriminate|]);
       intros (tb & _ & E & _); discriminate.
  destruct (get_property "birth" p) as [| | | | |[|tb]|];
    cbn [instanceof_Date negb orb getTime isNaN].
  1-6,8: split; [reflexivity|]; intros age; (split; [discriminate|]);
         intros (tb & E & _); discriminate.
  cbn [Date_now getTime gt sub].
  destruct (lt (getFullYear h (VDate (Int tb))) (Int 1970)).
  { split; [reflexivity|]. intros age. split; [discriminate|].
    intros (tb' & _ & E & _). discriminate. }
  destruct (clock h <? tb)%Z.
  { split; [reflexivity|]. intros age. split; [discriminate|].
    intros (tb' & _ & E & _). discriminate. }
  destruct (notOnCalendar h (VDate (Int tb))).
  { split; [reflexivity|]. intros age. split; [discriminate|].
    intros (tb' & _ & E & _). discriminate. }
  split.
  - intros e. split; discriminate.
  - intros age. split.
    + intros E. inversion E. exists tb. auto.
    + intros (tb' & E & _ & ->). inversion E. reflexivity.
Qed.

(** The claim as the specification words it fails on a birth date of 1969:
    the wall-clock copy rejects it, where a copy without the guard on years
    before 1970 would return an age. *)
Lemma wallclock_calculateAge_has_1970_guard :
  SrcModule.calculateAge SampleHost.paris SampleHost.bornIn1969 = Throw invalidDate
  /\ SrcModule.calculateAge_described SampleHost.paris SampleHost.bornIn1969
     = Ok (Int 56)
  /\ SrcModule.calculateAge SampleHost.paris SampleHost.bornIn1969
     <> SrcModule.calculateAge_described SampleHost.paris SampleHost.bornIn1969.
Proof. vm_compute. repeat split. discriminate. Qed.

End AgeCalculator.

(** ** The string validators *)

Section StringValidators.
Import Validator Spec.

Lemma not_string v h :
  typeof_string v = false ->
  validateIdentity h v = fail INVALID_IDENTITY "Invalid name".
Proof. intros H. unfold validateIdentity. now rewrite H. Qed.

Lemma nameChar_violation s :
  s = [] \/ Exists (fun c => ~ nameChar c) s -> test reName s = false.
Proof.
  intros H. destruct (test reName s) eqn:T; [|reflexivity].
  apply test_reName in T as [Hne Hall]. destruct H as [->|Hex]; [congruence|].
  apply Exists_exists in Hex as (c & Hin & Hc).
  rewrite Forall_forall in Hall. exfalso. apply Hc, Hall, Hin.
Qed.

(** C6.  validateIdentity checks in this order: a value that is not a
    string fails with "Invalid name"; a string with a [<] followed by a run
    of characters other than [>] fails with "XSS detected", whatever its
    other characters; a string that is empty or has a character that is
    neither a Latin letter, an accented Latin letter nor a hyphen fails with
    "Invalid characters in name"; every other string is accepted.  All
    failures have kind INVALID_IDENTITY. *)
Theorem validateIdentity_precedence h :
  (forall v, typeof_string v = false ->
     validateIdentity h v = fail INVALID_IDENTITY "Invalid name")
  /\ (forall s, hasOpeningTag s ->
     validateIdentity h (VString s) = fail INVALID_IDENTITY "XSS detected")
  /\ (forall s, ~ hasOpeningTag s ->
     s = [] \/ Exists (fun c => ~ nameChar c) s ->
     validateIdentity h (VString s)
     = fail INVALID_IDENTITY "Invalid characters in name")
  /\ (forall s, ~ hasOpeningTag s -> s <> [] -> Forall nameChar s ->
     validateIdentity h (VString s) = Ok tt).
Proof.
  repeat split.
  - intros v. apply not_string.
  - intros s Tag. unfold validateIdentity. cbn [typeof_string negb string_of].
    apply test_reTag in Tag. now rewrite Tag.
  - intros s NoTag Bad. unfold validateIdentity. cbn [typeof_string negb string_of].
    destruct (test reTag s) eqn:T; [apply test_reTag in T; contradiction|].
    now rewrite (nameChar_violation s Bad).
  - intros s NoTag Hne Hall. unfold validateIdentity.
    cbn [typeof_string negb string_of].
    destruct (test reTag s) eqn:T; [apply test_reTag in T; contradiction|].
    replace (test reName s) with true; [reflexivity|].
    symmetry. apply test_reName. auto.
Qed.

(** C7.  validateEmail accepts exactly the strings of the shape
    [local@domain.tld] (local: one or more letters, digits, dots,
    underscores, hyphens; domain: one or more letters, digits, dots,
    hyphens; tld: two or more letters; nothing before or after); every other
    input fails with kind INVALID_EMAIL.  test@gmail.com is accepted;
    test@, @example.com, test.com and //test@gmail.com are rejected. *)
Theorem validateEmail_contract h :
  (forall v, validateEmail h v = Ok tt <-> exists s, v = VString s /\ emailShape s)
  /\ (forall v, validateEmail h v = Ok tt
              \/ validateEmail h v = fail INVALID_EMAIL "Invalid email format")
  /\ validateEmail h (VString (str "test@gmail.com")) = Ok tt
  /\ Forall (fun s => validateEmail h (VString (str s))
                     = fail INVALID_EMAIL "Invalid email format")
       ["test@"; "@example.com"; "test.com"; "//test@gmail.com"]%string.
Proof.
  repeat split.
  - unfold validateEmail. destruct v as [| | | |s| |]; try discriminate.
    cbn [typeof_string negb orb string_of].
    destruct (test reEmail s) eqn:T; [|discriminate].
    intros _. exists s. split; [reflexivity|now apply test_reEmail].
  - intros (s & -> & Shape). unfold validateEmail.
    cbn [typeof_string negb orb string_of].
    apply test_reEmail in Shape. now rewrite Shape.
  - intros v. unfold validateEmail. destruct (_ || _); auto.
  - repeat constructor.
Qed.

(** C9, as amended.  validatePostCode, validateIdentity, validateEmail and
    validateTown are functions of their input alone: two runs on the same
    input give the same outcome on any two hosts, whatever their clocks.
    validateAge is a function of its input, of the reading of the wall clock
    and of the time zone: two runs on the same input give the same outcome
    when the clock reads the same. *)
Theorem validators_deterministic h1 h2 v :
  validatePostCode h1 v = validatePostCode h2 v
  /\ validateIdentity h1 v = validateIdentity h2 v
  /\ validateEmail h1 v = validateEmail h2 v
  /\ validateTown h1 v = validateTown h2 v
  /\ (LocalTZA h1 = LocalTZA h2 -> clock h1 = clock h2 ->
      validateAge h1 v = validateAge h2 v).
Proof.
  repeat split.
  intros Hz Hc. unfold validateAge, ageAt, Date_now, getFullYear, getMonth, getDate,
    LocalTime. now rewrite Hz, Hc.
Qed.

(** Two runs of validateAge on the same birth date, 2008-03-02, one at noon
    of 2026-03-01 and one a day later, differ: the first fails with
    INVALID_AGE, the second returns. *)
Lemma validateAge_depends_on_clock :
  validateAge SampleHost.paris (VDate (SampleHost.isoDateParse (str "2008-03-02")))
  = fail INVALID_AGE "Must be at least 18 years old"
  /\ validateAge SampleHost.parisNextDay
       (VDate (SampleHost.isoDateParse (str "2008-03-02")))
     = Ok tt
  /\ validateAge SampleHost.paris
       (VDate (SampleHost.isoDateParse (str "2008-03-02")))
     <> validateAge SampleHost.parisNextDay
          (VDate (SampleHost.isoDateParse (str "2008-03-02"))).
Proof. vm_compute. repeat split. discriminate. Qed.

End StringValidators.

(** ** The form *)

Section FormController.
Import Validator Spec Form.

Lemma validateAge_reported h d : reported (validateAge h d).
Proof.
  unfold validateAge.
  repeat match goal with |- context [if ?b then _ else _] => destruct b end;
    cbn; auto.
Qed.

Lemma validatePostCode_reported h v : reported (validatePostCode h v).
Proof. unfold validatePostCode. destruct (_ || _); cbn; auto. Qed.

Lemma validateIdentity_reported h v : reported (validateIdentity h v).
Proof.
  unfold validateIdentity.
  repeat match goal with |- context [if ?b then _ else _] => destruct b end;
    cbn; auto.
Qed.

Lemma validateEmail_reported h v : reported (validateEmail h v).
Proof. unfold validateEmail. destruct (_ || _); cbn; auto. Qed.

Lemma validateTown_reported h v : reported (validateTown h v).
Proof. unfold validateTown. destruct (_ || _); cbn; auto. Qed.

(** A reported outcome leaves no message exactly when the validator
    returned. *)
Lemma reported_truthy (r : result unit) :
  reported r ->
  truthy (match r with Ok _ => None | Throw err => Some (errorText err) end) = false
  <-> r = Ok tt.
Proof.
  destruct r as [[]|e]; cbn [reported].
  - intros _. split; reflexivity.
  - intros T. rewrite T. split; discriminate.
Qed.

Lemma isBlank_trim v : isBlank v = false <-> trim v <> [].
Proof.
  unfold isBlank. destruct v as [|c v].
  - split; [discriminate|]. intros H. now contradiction H.
  - destruct (trim (c :: v)); split; try discriminate; try congruence.
Qed.

Lemma checkEntry_empty h acc entry :
  checkEntry h acc entry = ∅ <-> acc = ∅ /\ clean h entry.
Proof.
  destruct entry as [name value]. unfold checkEntry, clean. cbn [fst snd].
  destruct (isBlank value).
  - split; [intros H; now apply insert_non_empty in H|]. intros [_ [H _]]. discriminate.
  - destruct (validateField h name value) as [m|] eqn:V.
    + destruct (truthy (Some m)).
      * split; [intros H; now apply insert_non_empty in H|].
        intros [_ [_ H]]. discriminate.
      * tauto.
    + cbn [truthy]. tauto.
Qed.

Lemma fold_checkEntry_empty h l acc :
  fold_left (checkEntry h) l acc = ∅ <-> acc = ∅ /\ Forall (clean h) l.
Proof.
  revert acc. induction l as [|e l IH]; intros acc; cbn [fold_left].
  - split; [intros H; split; [exact H|constructor]|tauto].
  - rewrite IH, checkEntry_empty, Forall_cons. tauto.
Qed.

(** The six entries, one by one. *)
Lemma clean_identity h name v :
  name = "lastname"%string \/ name = "firstname"%string ->
  clean h (name, v) <-> trim v <> [] /\ validateIdentity h (VString v) = Ok tt.
Proof.
  intros N. unfold clean. cbn [fst snd]. rewrite isBlank_trim.
  assert (E : validateField h name v =
              match validateIdentity h (VString v) with
              | Ok _ => None | Throw err => Some (errorText err) end)
    by (destruct N as [-> | ->]; reflexivity).
  rewrite E, (reported_truthy _ (validateIdentity_reported h _)). tauto.
Qed.

Lemma clean_email h v :
  clean h ("email"%string, v) <-> trim v <> [] /\ validateEmail h (VString v) = Ok tt.
Proof.
  unfold clean. cbn [fst snd]. rewrite isBlank_trim.
  change (validateField h "email" v) with
    (match validateEmail h (VString v) with
     | Ok _ => None | Throw err => Some (errorText err) end).
  rewrite (reported_truthy _ (validateEmail_reported h _)). tauto.
Qed.

Lemma clean_birth h v :
  clean h ("birth"%string, v)
  <-> trim v <> [] /\ validateAge h (Date_ofString h v) = Ok tt.
Proof.
  unfold clean. cbn [fst snd]. rewrite isBlank_trim.
  destruct v as [|c v].
  - split; intros [H _]; now contradiction H.
  - change (validateField h "birth" (c :: v)) with
      (match validateAge h (Date_ofString h (c :: v)) with
       | Ok _ => None | Throw err => Some (errorText err) end).
    rewrite (reported_truthy _ (validateAge_reported h _)). tauto.
Qed.

Lemma clean_postCode h v :
  clean h ("postCode"%string, v)
  <-> trim v <> [] /\ validatePostCode h (VString v) = Ok tt.
Proof.
  unfold clean. cbn [fst snd]. rewrite isBlank_trim.
  change (validateField h "postCode" v) with
    (match validatePostCode h (VString v) with
     | Ok _ => None | Throw err => Some (errorText err) end).
  rewrite (reported_truthy _ (validatePostCode_reported h _)). tauto.
Qed.

Lemma clean_town h v :
  clean h ("town"%string, v) <-> trim v <> [] /\ validateTown h (VString v) = Ok tt.
Proof.
  unfold clean. cbn [fst snd]. rewrite isBlank_trim.
  change (validateField h "town" v) with
    (match validateTown h (VString v) with
     | Ok _ => None | Throw err => Some (errorText err) end).
  rewrite (reported_truthy _ (validateTown_reported h _)). tauto.
Qed.

Lemma allFilled_trim (f : Fields) :
  forallb (fun v => negb (isBlank v)) (values f) = true <->
  trim (lastname f) <> [] /\ trim (firstname f) <> [] /\ trim (email f) <> []
  /\ trim (birth f) <> [] /\ trim (postCode f) <> [] /\ trim (town f) <> [].
Proof.
  unfold values, entries. cbn [map snd forallb].
  rewrite !andb_true_iff, !negb_true_iff, !isBlank_trim. tauto.
Qed.

(** C8.  The flag the form derives for a record of six fields (validateForm
    sets it to allFilled && noErrors, and the submit button is enabled by
    it) is true exactly when the six fields are non-empty after trimming and
    each field passes its validator without an error. *)
Theorem submittable_iff h f :
  (forall st, form st = f ->
     isValid (snd (validateForm h st))
     = allFilled (fst (validateForm h st)) && noErrors (fst (validateForm h st))
     /\ submitEnabled (snd (validateForm h st)) = submittable h f)
  /\ (submittable h f = true <->
      (trim (lastname f) <> [] /\ trim (firstname f) <> [] /\ trim (email f) <> []
       /\ trim (birth f) <> [] /\ trim (postCode f) <> [] /\ trim (town f) <> [])
      /\ validateIdentity h (VString (lastname f)) = Ok tt
      /\ validateIdentity h (VString (firstname f)) = Ok tt
      /\ validateEmail h (VString (email f)) = Ok tt
      /\ validateAge h (Date_ofString h (birth f)) = Ok tt
      /\ validatePostCode h (VString (postCode f)) = Ok tt
      /\ validateTown h (VString (town f)) = Ok tt).
Proof.
  split.
  - intros st <-. split; reflexivity.
  - unfold submittable, submitEnabled, validateForm. cbn [snd isValid form].
    rewrite andb_true_iff, allFilled_trim, Nat.eqb_eq, map_size_empty_iff.
    rewrite fold_checkEntry_empty. unfold entries.
    rewrite !Forall_cons, Forall_nil.
    rewrite !clean_identity by auto.
    rewrite clean_email, clean_birth, clean_postCode, clean_town.
    tauto.
Qed.

End FormController.

(** ** The tests of the repository, run on the model *)

Section Tests.
Import Validator Spec Form SampleHost.
Open Scope Z_scope.

(** [module.test.js] *)
Example test_correct_age :
  Part000.calculateAge paris
    (VObject [("birth"%string, VDate (isoDateParse (str "1991-11-07")))])
    (Some (isoDateParse (str "2026-12-01")))
  = Ok (Int 35).
Proof. reflexivity. Qed.

Example test_missing_param :
  Part000.calculateAge paris VUndefined None = Throw missingParam.
Proof. reflexivity. Qed.

Example test_missing_birth :
  Part000.calculateAge paris (VObject []) None = Throw missingBirth.
Proof. reflexivity. Qed.

Example test_not_a_date :
  Forall (fun v => Part000.calculateAge paris (VObject [("birth"%string, v)]) None
                   = Throw notADate)
    [VUndefined; VNull; VObject []; VNumber (Int 123); VDate NaN].
Proof. repeat constructor. Qed.

Example test_invalid_date :
  Forall (fun tb => Part000.calculateAge paris (person tb) None = Throw invalidDate)
    [utcDate 1969 12 31 - 3600000; clock paris + 1].
Proof. repeat constructor. Qed.

(** [validator.test.js], on 2026-02-15: its dates pass from 2017-03-01 to
    2026-02-28. *)
Example test_future_birth :
  validateAge parisFebruary (VDate (isoDateParse (str "2030-01-01")))
  = fail INVALID_DATE "Birth date cannot be in the future".
Proof. reflexivity. Qed.

Example test_adult :
  validateAge parisFebruary (VDate (isoDateParse (str "1999-03-01"))) = Ok tt.
Proof. reflexivity. Qed.

Example test_minor :
  Forall (fun s => validateAge parisFebruary (VDate (isoDateParse (str s)))
                   = fail INVALID_AGE "Must be at least 18 years old")
    ["2008-03-02"; "2008-02-29"]%string.
Proof. repeat constructor. Qed.

Example test_post_codes :
  validatePostCode paris (VString (str "37000")) = Ok tt
  /\ Forall (fun s => validatePostCode paris (VString (str s))
                      = fail INVALID_POST_CODE "Invalid post code")
       ["3700"; "ABCDE"; "3700A"]%string.
Proof. split; repeat constructor. Qed.

(** 239 is the code unit of the i with diaeresis of the second name. *)
Example test_names :
  validateIdentity paris (VString (str "Jean-Michel")) = Ok tt
  /\ validateIdentity paris (VString [108; 111; 239; 115; 101]%N) = Ok tt
  /\ validateIdentity paris (VString (str "Jean123"))
     = fail INVALID_IDENTITY "Invalid characters in name"
  /\ validateIdentity paris (VString [108; 111; 239; 47; 115; 101]%N)
     = fail INVALID_IDENTITY "Invalid characters in name"
  /\ validateIdentity paris (VString (str "<script>alert(1)</script>"))
     = fail INVALID_IDENTITY "XSS detected".
Proof. repeat split. Qed.

(** [form.test.jsx]: the submit button, before and after the six fields are
    typed in. *)
Example test_submit_button :
  submittable paris initialState = false /\ submittable paris jeanPierre = true.
Proof. split; reflexivity. Qed.

(** The two copies of calculateAge can disagree on an accepted birth date:
    365 days after a birth on 1999-03-01 the calendar says the first
    birthday is a day away, the elapsed milliseconds say a year has passed. *)
Example elapsed_year_differs :
  Part000.calculateAge (mkEnv 0 (utcDate 2000 2 29) isoDateParse)
    (person (utcDate 1999 3 1)) None = Ok (Int 0)
  /\ SrcModule.calculateAge (mkEnv 0 (utcDate 2000 2 29) isoDateParse)
       (person (utcDate 1999 3 1)) = Ok (Int 1).
Proof. split; reflexivity. Qed.

End Tests.

(** ** The theorems at concrete inputs *)

Section Witnesses.
Import Validator Spec Form SampleHost.
Open Scope Z_scope.

Lemma paris_plausible : plausibleZone paris.
Proof. reflexivity. Defined.

Lemma timeValue_1991 : timeValue (utcDate 1991 11 7).
Proof. vm_compute. discriminate. Defined.

(** A person born on 1991-11-07 is 35 on 2026-12-01. *)
Lemma calculateAge_whole_years_witness :
  exists age,
    Part000.calculateAge paris bornIn1991 (Some (Int (utcDate 2026 12 1)))
    = Ok (Int age)
    /\ (lexLess (localMonth paris (utcDate 2026 12 1))
                (localDate paris (utcDate 2026 12 1))
                (localMonth paris (utcDate 1991 11 7))
                (localDate paris (utcDate 1991 11 7)) ->
        age = localYear paris (utcDate 2026 12 1)
              - localYear paris (utcDate 1991 11 7) - 1)
    /\ (~ lexLess (localMonth paris (utcDate 2026 12 1))
                  (localDate paris (utcDate 2026 12 1))
                  (localMonth paris (utcDate 1991 11 7))
                  (localDate paris (utcDate 1991 11 7)) ->
        age = localYear paris (utcDate 2026 12 1)
              - localYear paris (utcDate 1991 11 7)).
Proof.
  apply (proj1 calculateAge_whole_years paris
           [("birth"%string, VDate (Int (utcDate 1991 11 7)))]
           (Some (Int (utcDate 2026 12 1)))
           (utcDate 1991 11 7) (utcDate 2026 12 1)).
  - exact paris_plausible.
  - reflexivity.
  - exact timeValue_1991.
  - vm_compute. discriminate.
  - reflexivity.
  - vm_compute. discriminate.
  - split; split; vm_compute; discriminate.
Defined.


(** A birth date of 1995 is neither malformed nor in the future. *)
Lemma validateAge_invalid_date_witness :
  validateAge paris (VDate (Int (utcDate 1995 5 15))) = Ok tt
  \/ exists m, validateAge paris (VDate (Int (utcDate 1995 5 15)))
               = Throw (Thrown (Some INVALID_AGE) m).
Proof.
  apply (proj2 (validateAge_invalid_date paris (VDate (Int (utcDate 1995 5 15))))).
  intros [W|(t & E & L)].
  - apply W. eexists. reflexivity.
  - inversion E. subst t. vm_compute in L. discriminate L.
Defined.

(** On 2026-03-01 a birth date of 2008-03-01 passes and one of 2008-03-02
    fails. *)
Lemma validateAge_eighteenth_birthday_witness :
  validateAge paris (VDate (Int (utcDate 2008 3 1))) = Ok tt
  /\ validateAge paris (VDate (Int (utcDate 2008 3 2)))
     = fail INVALID_AGE "Must be at least 18 years old".
Proof.
  apply (validateAge_eighteenth_birthday paris (utcDate 2008 3 1) (utcDate 2008 3 2));
    reflexivity.
Defined.

Lemma validateIdentity_precedence_witness :
  validateIdentity paris (VNumber (Int 123)) = fail INVALID_IDENTITY "Invalid name"
  /\ validateIdentity paris (VString (str "<script>alert(1)</script>"))
     = fail INVALID_IDENTITY "XSS detected"
  /\ validateIdentity paris (VString (str "Jean123"))
     = fail INVALID_IDENTITY "Invalid characters in name"
  /\ validateIdentity paris (VString (str "Jean-Michel")) = Ok tt.
Proof.
  destruct (validateIdentity_precedence paris) as (NotString & Tag & Chars & Accept).
  assert (NoTag : forall s, existsb (N.eqb lessThan) s = false -> ~ hasOpeningTag s).
  { intros s E (b & run & a & -> & _).
    rewrite existsb_app in E. cbn in E. rewrite orb_true_r in E. discriminate E. }
  split; [|split; [|split]].
  - apply NotString. reflexivity.
  - apply Tag. exists [], (str "script"), (str ">alert(1)</script>").
    split; [reflexivity|]. repeat constructor; discriminate.
  - apply Chars; [apply NoTag; reflexivity|].
    right. change (str "Jean123") with [74; 101; 97; 110; 49; 50; 51]%N.
    do 4 apply Exists_cons_tl. apply Exists_cons_hd.
    intros H. apply class_nameChars in H. discriminate H.
  - apply Accept; [apply NoTag; reflexivity|discriminate|].
    apply (proj1 (test_reName (str "Jean-Michel")) eq_refl).
Defined.

(** The record of the tests is submittable, in whatever state the form is. *)
Lemma submittable_iff_witness :
  isValid (snd (validateForm paris (mkState jeanPierre ∅ false)))
  = allFilled (fst (validateForm paris (mkState jeanPierre ∅ false)))
    && noErrors (fst (validateForm paris (mkState jeanPierre ∅ false)))
  /\ submitEnabled (snd (validateForm paris (mkState jeanPierre ∅ false)))
     = submittable paris jeanPierre.
Proof.
  apply (proj1 (submittable_iff paris jeanPierre)). reflexivity.
Defined.

(** Two hosts with the same clock and zone agree on validateAge. *)
Lemma validators_deterministic_witness :
  validateAge paris (VDate (Int (utcDate 2008 3 2)))
  = validateAge parisNoParser (VDate (Int (utcDate 2008 3 2))).
Proof.
  apply (validators_deterministic paris parisNoParser); reflexivity.
Defined.

Lemma calendar_check_unreachable_witness :
  notOnCalendar paris (VDate (Int (utcDate 1991 11 7))) = false.
Proof.
  apply (calendar_check_unreachable paris (utcDate 1991 11 7)).
  - exact paris_plausible.
  - exact timeValue_1991.
  - reflexivity.
Defined.

End Witnesses.

(* ===================================================================== *)
(** * Part III.  Further properties of the code                           *)
(* ===================================================================== *)

(** ** The string validators *)

Section StringContracts.
Import Validator Spec Notions.

Lemma in_ranges_app rs1 rs2 c :
  in_ranges (rs1 ++ rs2) c = in_ranges rs1 c || in_ranges rs2 c.
Proof. unfold in_ranges. apply existsb_app. Qed.

Lemma class_townChars c : class_matches false townChars c = true <-> townChar c.
Proof.
  unfold townChar, isWhiteSpace. rewrite <- class_nameChars.
  unfold class_matches, townChars, nameChars. cbn [xorb].
  change [(65, 90); (97, 122); (192, 214); (216, 246); (248, 255); (45, 45)]%N
    with ([(65, 90); (97, 122); (192, 214); (216, 246); (248, 255)]%N
          ++ [(45, 45)]%N).
  rewrite !in_ranges_app, !orb_true_iff. tauto.
Qed.

(** [/^[A-Za-zÀ-ÖØ-öø-ÿ\s\-]+$/] accepts the nonempty strings of town
    characters. *)
Lemma test_reTown s : test reTown s = true <-> s <> [] /\ Forall townChar s.
Proof.
  unfold reTown. rewrite test_anchored, lang_plus_class.
  now rewrite (Forall_equiv _ townChar class_townChars).
Qed.

Lemma nameChar_not_markup c : nameChar c -> ~ markup c.
Proof.
  unfold nameChar, latinLetter, accentedLetter, hyphen, markup, lessThan, greaterThan.
  lia.
Qed.

Lemma whiteSpace_not_markup c : isWhiteSpace c = true -> ~ markup c.
Proof.
  unfold isWhiteSpace, in_ranges, whiteSpace, markup, lessThan, greaterThan.
  cbn [existsb]. rewrite !orb_true_iff, !andb_true_iff, !N.leb_le. lia.
Qed.

Lemma nameChar_not_whiteSpace c : nameChar c -> isWhiteSpace c = false.
Proof.
  intros H. destruct (isWhiteSpace c) eqn:W; [|reflexivity]. exfalso.
  revert H W.
  unfold nameChar, latinLetter, accentedLetter, hyphen, isWhiteSpace, in_ranges,
    whiteSpace.
  cbn [existsb]. rewrite !orb_true_iff, !andb_true_iff, !N.leb_le. lia.
Qed.

(** A string of name characters has no opening tag. *)
Lemma nameChars_no_tag s : Forall nameChar s -> test reTag s = false.
Proof.
  intros F. destruct (test reTag s) eqn:T; [|reflexivity].
  apply test_reTag, hasOpeningTag_In in T.
  rewrite List.Forall_forall in F. apply F in T.
  apply nameChar_not_markup in T. exfalso. apply T. now left.
Qed.

Lemma validateIdentity_Ok h v :
  validateIdentity h v = Ok tt <->
  exists s, v = VString s /\ s <> [] /\ Forall nameChar s.
Proof.
  unfold validateIdentity. destruct v as [| | | |s| |];
    try (split; [discriminate|intros (s' & E & _); discriminate E]).
  cbn [typeof_string negb string_of]. split.
  - destruct (test reTag s); [discriminate|].
    destruct (test reName s) eqn:N; [|discriminate].
    intros _. exists s. split; [reflexivity|now apply test_reName].
  - intros (s' & E & Hne & F). inversion E; subst s'.
    rewrite (nameChars_no_tag s F).
    replace (test reName s) with true; [reflexivity|].
    symmetry. apply test_reName. auto.
Qed.

Lemma validateTown_Ok h v :
  validateTown h v = Ok tt <->
  exists s, v = VString s /\ s <> [] /\ Forall townChar s.
Proof.
  unfold validateTown. destruct v as [| | | |s| |];
    try (split; [discriminate|intros (s' & E & _); discriminate E]).
  cbn [typeof_string negb orb string_of]. split.
  - destruct (test reTown s) eqn:T; [|discriminate].
    intros _. exists s. split; [reflexivity|now apply test_reTown].
  - intros (s' & E & Hne & F). inversion E; subst s'.
    replace (test reTown s) with true; [reflexivity|].
    symmetry. apply test_reTown. auto.
Qed.

Lemma validatePostCode_Ok h v :
  validatePostCode h v = Ok tt <->
  exists s, v = VString s /\ length s = 5%nat /\ Forall asciiDigit s.
Proof.
  unfold validatePostCode. destruct v as [| | | |s| |];
    try (split; [discriminate|intros (s' & E & _); discriminate E]).
  cbn [typeof_string negb orb string_of]. split.
  - destruct (test rePostCode s) eqn:T; [|discriminate].
    intros _. exists s. split; [reflexivity|now apply test_rePostCode].
  - intros (s' & E & L & F). inversion E; subst s'.
    replace (test rePostCode s) with true; [reflexivity|].
    symmetry. apply test_rePostCode. auto.
Qed.

(** X1.  validatePostCode returns exactly on the strings of five ASCII
    digits; every other value, string or not, fails with kind
    INVALID_POST_CODE and the message "Invalid post code". *)
Theorem validatePostCode_contract h v :
  (validatePostCode h v = Ok tt <->
   exists s, v = VString s /\ length s = 5%nat /\ Forall asciiDigit s)
  /\ (validatePostCode h v = Ok tt
      \/ validatePostCode h v = fail INVALID_POST_CODE "Invalid post code").
Proof.
  split; [apply validatePostCode_Ok|].
  unfold validatePostCode. destruct (_ || _); auto.
Qed.

(** X2.  validateTown returns exactly on the nonempty strings of Latin
    letters, accented Latin letters, hyphens and white space; every other
    value fails with kind INVALID_TOWN and the message "Invalid town name".
    It has no check for tags of its own, but what it accepts holds neither
    [<] nor [>]. *)
Theorem validateTown_contract h v :
  (validateTown h v = Ok tt <->
   exists s, v = VString s /\ s <> [] /\ Forall townChar s)
  /\ (validateTown h v = Ok tt
      \/ validateTown h v = fail INVALID_TOWN "Invalid town name")
  /\ (forall s, validateTown h (VString s) = Ok tt ->
                Forall (fun c => ~ markup c) s).
Proof.
  split; [apply validateTown_Ok|]. split.
  - unfold validateTown. destruct (_ || _); auto.
  - intros s H. apply validateTown_Ok in H as (s' & E & _ & F).
    inversion E; subst s'. eapply List.Forall_impl; [|exact F].
    intros c [N|W]; [now apply nameChar_not_markup|now apply whiteSpace_not_markup].
Qed.

(** X3.  validateIdentity returns exactly on the nonempty strings of Latin
    letters, accented Latin letters and hyphens: the test for an opening tag
    decides the message of a failure, never whether a name is accepted. *)
Theorem validateIdentity_accepts h v :
  (validateIdentity h v = Ok tt <->
   exists s, v = VString s /\ s <> [] /\ Forall nameChar s)
  /\ (forall s, test reName s = true -> test reTag s = false).
Proof.
  split; [apply validateIdentity_Ok|].
  intros s H. apply test_reName in H as [_ F]. now apply nameChars_no_tag.
Qed.

(** X4.  Every name validateIdentity accepts is a town validateTown accepts,
    and it holds no white space: a name of two words is rejected where the
    same string is accepted as a town. *)
Theorem validateIdentity_within_validateTown h s :
  validateIdentity h (VString s) = Ok tt ->
  validateTown h (VString s) = Ok tt
  /\ Forall (fun c => isWhiteSpace c = false) s.
Proof.
  intros H. apply validateIdentity_Ok in H as (s' & E & Hne & F).
  inversion E; subst s'. split.
  - apply validateTown_Ok. exists s. repeat split; auto.
    eapply List.Forall_impl; [|exact F]. intros c N. now left.
  - eapply List.Forall_impl; [|exact F]. apply nameChar_not_whiteSpace.
Qed.

End StringContracts.

(** ** Ages and the order of dates *)

Section AgeOrder.
Import Validator Spec Notions.
Open Scope Z_scope.

(** Later days have later dates. *)
Lemma fields_dateLe t1 t2 :
  Day t1 <= Day t2 ->
  dateLe (YearFromTime t1) (MonthFromTime t1) (DateFromTime t1)
         (YearFromTime t2) (MonthFromTime t2) (DateFromTime t2).
Proof.
  intros H. unfold dateLe.
  pose proof (YearFromDay_mono _ _ H) as Y.
  fold (YearFromTime t1) (YearFromTime t2) in Y.
  destruct (Z.eq_dec (YearFromTime t1) (YearFromTime t2)) as [E|NE]; [|left; lia].
  right. split; [exact E|].
  assert (L : InLeapYear t1 = InLeapYear t2) by (unfold InLeapYear; now rewrite E).
  assert (W : DayWithinYear t1 <= DayWithinYear t2)
    by (unfold DayWithinYear; rewrite E; lia).
  pose proof (DayWithinYear_range t1) as R1.
  destruct (InLeapYear_cases t2) as [L2|L2];
    unfold DateFromTime, MonthFromTime; cbv zeta; rewrite L, L2 in *;
    month_cases; cbv iota; lia.
Qed.

(** Under the constant offset of [Env], later instants have later local
    dates. *)
Lemma local_dateLe h t1 t2 :
  t1 <= t2 ->
  dateLe (localYear h t1) (localMonth h t1) (localDate h t1)
         (localYear h t2) (localMonth h t2) (localDate h t2).
Proof.
  intros H. apply fields_dateLe, Day_mono. unfold LocalTime. lia.
Qed.

(** The age reaches [k] exactly when the [k]-th anniversary of the birth
    date is not after the reference date. *)
Lemma age_reaches k yn mn dn yb mb db :
  k <= yn - yb - (if (mb <? mn) || ((mn =? mb) && (db <=? dn)) then 0 else 1)
  <-> dateLe (yb + k) mb db yn mn dn.
Proof.
  unfold dateLe.
  destruct (Z.ltb_spec mb mn), (Z.eqb_spec mn mb), (Z.leb_spec db dn);
    cbn [orb andb]; lia.
Qed.

Lemma dateLe_trans y1 m1 d1 y2 m2 d2 y3 m3 d3 :
  dateLe y1 m1 d1 y2 m2 d2 -> dateLe y2 m2 d2 y3 m3 d3 -> dateLe y1 m1 d1 y3 m3 d3.
Proof. unfold dateLe. lia. Qed.

Lemma dateLe_shift k y1 m1 d1 y2 m2 d2 :
  dateLe y1 m1 d1 y2 m2 d2 -> dateLe (y1 + k) m1 d1 (y2 + k) m2 d2.
Proof. unfold dateLe. lia. Qed.

(** validateAge on a well-formed date, in terms of the two dates. *)
Lemma validateAge_Ok_iff h tb :
  validateAge h (VDate (Int tb)) = Ok tt <->
  tb <= clock h
  /\ dateLe (localYear h tb + 18) (localMonth h tb) (localDate h tb)
            (localYear h (clock h)) (localMonth h (clock h)) (localDate h (clock h)).
Proof.
  rewrite validateAge_wellFormed. unfold Date_now. rewrite ageAt_fields.
  rewrite <- age_reaches. cbn [lt].
  destruct (Z.ltb_spec (clock h) tb) as [F|NF].
  - split; [discriminate|lia].
  - match goal with |- context [?a <? 18] => destruct (Z.ltb_spec a 18) end.
    + split; [discriminate|lia].
    + split; [lia|reflexivity].
Qed.

(** X5.  On a host whose local time is UTC plus a constant offset, as [Env]
    has it (no daylight-saving or other transition), validateAge is
    monotone: a birth date it accepts stays accepted when the clock moves
    forward under the same offset, and every earlier birth date is accepted
    with it.  (Where the local clock is set back, the local date can go
    back with it, and the order is lost.) *)
Theorem validateAge_monotone h1 h2 tb tb' :
  validateAge h1 (VDate (Int tb)) = Ok tt ->
  LocalTZA h2 = LocalTZA h1 -> clock h1 <= clock h2 -> tb' <= tb ->
  validateAge h2 (VDate (Int tb')) = Ok tt.
Proof.
  intros H Hz Hc Hb. apply validateAge_Ok_iff in H as [Hle Hage].
  apply validateAge_Ok_iff. split; [lia|].
  assert (Z2 : forall t, localYear h2 t = localYear h1 t
                         /\ localMonth h2 t = localMonth h1 t
                         /\ localDate h2 t = localDate h1 t).
  { intros t. unfold localYear, localMonth, localDate, LocalTime.
    now rewrite Hz. }
  destruct (Z2 tb') as (-> & -> & ->). destruct (Z2 (clock h2)) as (-> & -> & ->).
  eapply dateLe_trans; [apply dateLe_shift, (local_dateLe h1 tb' tb Hb)|].
  eapply dateLe_trans; [exact Hage|].
  apply local_dateLe, Hc.
Qed.

Lemma leap_plus_18 y : DaysInYear y = 366 -> DaysInYear (y + 18) = 365.
Proof.
  unfold DaysInYear.
  destruct (Z.eqb_spec (y mod 4) 0) as [E|E]; cbn [negb]; [|discriminate].
  intros _.
  destruct (Z.eqb_spec ((y + 18) mod 4) 0) as [E'|E']; cbn [negb]; [lia|reflexivity].
Qed.

(** X6.  A person born on 29 February comes of age on 1 March: in the year
    of the eighteenth birthday validateAge accepts the birth date exactly
    from March on, since that year has no 29 February. *)
Theorem validateAge_leap_day h tb :
  localMonth h tb = 1 -> localDate h tb = 29 ->
  localYear h (clock h) = localYear h tb + 18 ->
  (validateAge h (VDate (Int tb)) = Ok tt <-> 2 <= localMonth h (clock h)).
Proof.
  intros Hm Hd Hy. rewrite validateAge_Ok_iff, Hm, Hd, Hy.
  assert (Hle : tb <= clock h).
  { destruct (Z_le_gt_dec tb (clock h)) as [|G]; [assumption|].
    pose proof (localYear_mono h (clock h) tb ltac:(lia)). lia. }
  assert (Leap : DaysInYear (localYear h tb) = 366).
  { destruct (fields_onCalendar (LocalTime h tb)) as [_ [_ Hdim]].
    fold (localYear h tb) (localMonth h tb) (localDate h tb) in Hdim.
    rewrite Hm, Hd in Hdim. unfold daysInMonth in Hdim.
    destruct (DaysInYear_cases (localYear h tb)) as [E|E]; [|exact E].
    rewrite E in Hdim. cbn in Hdim. lia. }
  assert (Short : localMonth h (clock h) = 1 -> localDate h (clock h) <= 28).
  { intros M. destruct (fields_onCalendar (LocalTime h (clock h))) as [_ [_ Hdim]].
    fold (localYear h (clock h)) (localMonth h (clock h)) (localDate h (clock h))
      in Hdim.
    rewrite M, Hy in Hdim. unfold daysInMonth in Hdim.
    rewrite (leap_plus_18 _ Leap) in Hdim. cbn in Hdim. exact Hdim. }
  unfold dateLe. split.
  - intros [_ [F|[_ [M|[M D]]]]]; lia.
  - intros M. split; [exact Hle|]. right. split; [reflexivity|]. left. lia.
Qed.

End AgeOrder.

(** ** More on the two age calculators *)

Section AgeCalculators.
Import Validator Spec Notions.
Open Scope Z_scope.

(** What a returned age tells about the subject. *)
Lemma calculateAge_Ok_inv h p cd r :
  Part000.calculateAge h p cd = Ok r ->
  exists tb,
    ToBoolean p = true /\ has_property "birth" p = Ok true
    /\ get_property "birth" p = VDate (Int tb)
    /\ 1970 <= localYear h tb
    /\ gt (Int tb) (referenceTime h cd) = false
    /\ notOnCalendar h (VDate (Int tb)) = false
    /\ r = ageAt h (VDate (referenceTime h cd)) (VDate (Int tb)).
Proof.
  intros H.
  destruct (ToBoolean p) eqn:T;
    [|rewrite (calculateAge_absent h p cd T) in H; discriminate H].
  destruct (has_property "birth" p) as [[|]|e] eqn:B.
  - destruct (get_property "birth" p) as [| | | | |[|tb]|] eqn:E;
      try (rewrite (calculateAge_not_a_date h p cd T B) in H;
           [discriminate H|rewrite E; intros [t' E']; discriminate E']).
    rewrite (calculateAge_date h p cd tb T B E) in H.
    destruct (Z.ltb_spec (localYear h tb) 1970); [discriminate H|].
    destruct (gt (Int tb) (referenceTime h cd)) eqn:G; [discriminate H|].
    destruct (notOnCalendar h (VDate (Int tb))) eqn:C; [discriminate H|].
    inversion H. exists tb. repeat split; auto.
  - rewrite (calculateAge_no_birth h p cd T B) in H. discriminate H.
  - unfold Part000.calculateAge in H. rewrite T, B in H. discriminate H.
Qed.

Lemma wallclock_calculateAge_Ok_inv h p r :
  SrcModule.calculateAge h p = Ok r ->
  exists tb,
    ToBoolean p = true /\ has_property "birth" p = Ok true
    /\ get_property "birth" p = VDate (Int tb)
    /\ 1970 <= localYear h tb
    /\ tb <= clock h
    /\ r = Math_abs (sub (getUTCFullYear (Date_ofNumber (Int (clock h - tb))))
                        (Int 1970)).
Proof.
  intros H. unfold SrcModule.calculateAge in H.
  destruct (ToBoolean p) eqn:T; [|discriminate H]. cbn [negb] in H.
  destruct (has_property "birth" p) as [[|]|e] eqn:B; try discriminate H.
  destruct (get_property "birth" p) as [| | | | |[|tb]|] eqn:E;
    try discriminate H.
  cbn [instanceof_Date negb orb getTime isNaN Date_now gt sub] in H.
  change (lt (getFullYear h (VDate (Int tb))) (Int 1970))
    with (localYear h tb <? 1970) in H.
  destruct (Z.ltb_spec (localYear h tb) 1970); [discriminate H|].
  destruct (Z.ltb_spec (clock h) tb); [discriminate H|].
  destruct (notOnCalendar h (VDate (Int tb))); [discriminate H|].
  inversion H. exists tb. repeat split; auto.
Qed.

(** X7.  The validator and the calculator agree: for a birth date of 1970
    or later, validateAge accepts it exactly when calculateAge, called on a
    subject with that birth date and no reference date, returns an age of 18
    or more. *)
Theorem validateAge_agrees_with_calculateAge h tb :
  plausibleZone h -> timeValue tb -> 1970 <= localYear h tb ->
  (validateAge h (VDate (Int tb)) = Ok tt <->
   exists a, Part000.calculateAge h (VObject [("birth"%string, VDate (Int tb))]) None
             = Ok (Int a) /\ 18 <= a).
Proof.
  intros Hz Ht Hy.
  rewrite (calculateAge_date h _ None tb) by reflexivity.
  replace (localYear h tb <? 1970) with false by (symmetry; apply Z.ltb_ge; lia).
  rewrite notOnCalendar_false by assumption.
  rewrite validateAge_wellFormed. cbn [referenceTime gt]. unfold Date_now.
  rewrite ageAt_fields. cbn [lt].
  destruct (Z.ltb_spec (clock h) tb).
  - split; [discriminate|]. intros (a & E & _). discriminate E.
  - match goal with |- context [?x <? 18] => destruct (Z.ltb_spec x 18) end.
    + split; [discriminate|]. intros (a & E & L). inversion E. lia.
    + split; [|reflexivity]. intros _. eexists. split; [reflexivity|lia].
Qed.

(** X8.  On a host whose local time is UTC plus a constant offset, as [Env]
    has it (no daylight-saving or other transition), an age calculateAge
    returns against a valid reference date is never negative, and never
    more than the years from 1970 to the year of the reference date. *)
Theorem calculateAge_range h p currentDate tc a :
  referenceTime h currentDate = Int tc ->
  Part000.calculateAge h p currentDate = Ok (Int a) ->
  0 <= a <= localYear h tc - 1970.
Proof.
  intros Hr H. apply calculateAge_Ok_inv in H as (tb & _ & _ & _ & Hy & G & _ & E).
  rewrite Hr in G, E. cbn [gt] in G. apply Z.ltb_ge in G.
  rewrite ageAt_fields in E. inversion E as [Ea]. clear E.
  pose proof (local_dateLe h tb tc G) as L.
  apply (dateLe_shift 0) in L. rewrite !Z.add_0_r in L.
  rewrite <- (Z.add_0_r (localYear h tb)) in L.
  apply age_reaches in L.
  split; [exact L|].
  destruct (_ || _); lia.
Qed.

(** X9.  calculateAge does not check its reference date: against an
    invalid Date it raises nothing and returns NaN for every subject whose
    birth date is a valid Date of 1970 or later, even one in the future. *)
Theorem calculateAge_invalid_reference h props tb :
  plausibleZone h -> timeValue tb ->
  lookup_prop "birth" props = Some (VDate (Int tb)) ->
  1970 <= localYear h tb ->
  Part000.calculateAge h (VObject props) (Some NaN) = Ok NaN.
Proof.
  intros Hz Ht Hl Hy.
  rewrite (calculateAge_date h (VObject props) (Some NaN) tb); cycle 1.
  { reflexivity. }
  { cbn [has_property]. now rewrite Hl. }
  { cbn [get_property]. now rewrite Hl. }
  replace (localYear h tb <? 1970) with false by (symmetry; apply Z.ltb_ge; lia).
  cbn [referenceTime gt]. now rewrite notOnCalendar_false by assumption.
Qed.

(** X10.  On a host whose local time is UTC plus a constant offset, as
    [Env] has it (no daylight-saving or other transition), the age
    calculateAge returns never decreases as the reference date moves
    forward: a subject accepted at one reference date is accepted at every
    later one, with an age at least as large. *)
Theorem calculateAge_monotone h p tc tc' a :
  Part000.calculateAge h p (Some (Int tc)) = Ok (Int a) ->
  tc <= tc' ->
  exists a', Part000.calculateAge h p (Some (Int tc')) = Ok (Int a') /\ a <= a'.
Proof.
  intros H Hle.
  apply calculateAge_Ok_inv in H as (tb & T & B & E & Hy & G & C & Ea).
  cbn [referenceTime gt] in G, Ea. apply Z.ltb_ge in G.
  rewrite (calculateAge_date h p _ tb T B E).
  replace (localYear h tb <? 1970) with false by (symmetry; apply Z.ltb_ge; lia).
  cbn [referenceTime gt].
  replace (tc' <? tb) with false by (symmetry; apply Z.ltb_ge; lia).
  rewrite C, ageAt_fields. eexists. split; [reflexivity|].
  rewrite ageAt_fields in Ea. inversion Ea as [Ea'].
  apply age_reaches. eapply dateLe_trans; [|apply (local_dateLe h tc tc' Hle)].
  apply age_reaches. lia.
Qed.

Lemma month_enum m :
  0 <= m <= 11 ->
  m = 0 \/ m = 1 \/ m = 2 \/ m = 3 \/ m = 4 \/ m = 5 \/ m = 6 \/ m = 7 \/ m = 8
  \/ m = 9 \/ m = 10 \/ m = 11.
Proof. lia. Qed.

Lemma DaysBeforeMonth_order y m1 d1 m2 d2 :
  0 <= m1 <= 11 -> 0 <= m2 <= 11 -> d1 <= daysInMonth y m1 -> 1 <= d2 ->
  m1 < m2 \/ (m1 = m2 /\ d1 <= d2) ->
  DaysBeforeMonth m1 0 + d1 <= DaysBeforeMonth m2 0 + d2.
Proof.
  intros H1 H2 Hd1 Hd2 [Lt|[-> Le]]; [|lia].
  assert (Feb : daysInMonth y 1 <= 29)
    by (unfold daysInMonth; destruct (_ =? _); lia).
  destruct (month_enum m1 H1) as [-> | [-> | [-> | [-> | [-> | [-> | [-> | [-> | [-> | [-> | [-> | ->]]]]]]]]]]];
  destruct (month_enum m2 H2) as [-> | [-> | [-> | [-> | [-> | [-> | [-> | [-> | [-> | [-> | [-> | ->]]]]]]]]]]];
    try lia; cbn [DaysBeforeMonth daysInMonth] in *; lia.
Qed.

Lemma DayWithinYear_base t :
  DaysBeforeMonth (MonthFromTime t) 0 + DateFromTime t - 1 <= DayWithinYear t
  <= DaysBeforeMonth (MonthFromTime t) 0 + DateFromTime t.
Proof.
  pose proof (DaysBeforeMonth_fields t) as F.
  pose proof (MonthFromTime_range t) as M.
  revert F.
  destruct (InLeapYear_cases t) as [-> | ->];
  destruct (month_enum _ M) as [-> | [-> | [-> | [-> | [-> | [-> | [-> | [-> | [-> | [-> | [-> | ->]]]]]]]]]]];
    cbn [DaysBeforeMonth]; lia.
Qed.

(** The place of two days in their years follows the order of their months
    and dates, up to the leap day. *)
Lemma dayWithinYear_order tn tb :
  ((MonthFromTime tb <? MonthFromTime tn)
   || ((MonthFromTime tn =? MonthFromTime tb)
       && (DateFromTime tb <=? DateFromTime tn)) = true ->
   DayWithinYear tb - 1 <= DayWithinYear tn)
  /\ ((MonthFromTime tb <? MonthFromTime tn)
      || ((MonthFromTime tn =? MonthFromTime tb)
          && (DateFromTime tb <=? DateFromTime tn)) = false ->
      DayWithinYear tn <= DayWithinYear tb + 1).
Proof.
  pose proof (DayWithinYear_base tn) as Bn.
  pose proof (DayWithinYear_base tb) as Bb.
  destruct (fields_onCalendar tn) as [Mn [Dn1 Dn2]].
  destruct (fields_onCalendar tb) as [Mb [Db1 Db2]].
  split; intros H.
  - assert (L : MonthFromTime tb < MonthFromTime tn
                \/ (MonthFromTime tb = MonthFromTime tn
                    /\ DateFromTime tb <= DateFromTime tn)).
    { revert H.
      destruct (Z.ltb_spec (MonthFromTime tb) (MonthFromTime tn)); [auto|].
      destruct (Z.eqb_spec (MonthFromTime tn) (MonthFromTime tb)); [|discriminate].
      destruct (Z.leb_spec (DateFromTime tb) (DateFromTime tn)); [auto|discriminate]. }
    pose proof (DaysBeforeMonth_order _ _ _ _ _ Mb Mn Db2 Dn1 L). lia.
  - assert (L : MonthFromTime tn < MonthFromTime tb
                \/ (MonthFromTime tn = MonthFromTime tb
                    /\ DateFromTime tn <= DateFromTime tb)).
    { revert H.
      destruct (Z.ltb_spec (MonthFromTime tb) (MonthFromTime tn)); [discriminate|].
      destruct (Z.eqb_spec (MonthFromTime tn) (MonthFromTime tb)); [|lia].
      destruct (Z.leb_spec (DateFromTime tb) (DateFromTime tn)); [discriminate|].
      intros _. right. lia. }
    pose proof (DaysBeforeMonth_order _ _ _ _ _ Mn Mb Dn2 Db1 L). lia.
Qed.

Lemma YearFromTime_epoch t : 0 <= t -> 1970 <= YearFromTime t.
Proof. intros H. apply (YearFromTime_mono 0 t H). Qed.

(** X11.  When the wall-clock copy of calculateAge ([src/module.js])
    returns a number, Math.abs has changed nothing: the number is the UTC year of the elapsed time
    minus 1970, and it is not negative. *)
Theorem wallclock_calculateAge_nonnegative h p k :
  SrcModule.calculateAge h p = Ok (Int k) ->
  0 <= k
  /\ exists tb, get_property "birth" p = VDate (Int tb)
               /\ k = YearFromTime (clock h - tb) - 1970.
Proof.
  intros H. apply wallclock_calculateAge_Ok_inv in H as (tb & _ & _ & E & _ & Hle & R).
  unfold Date_ofNumber, TimeClip in R.
  destruct (Z.abs (clock h - tb) <=? maxTime); [|discriminate R].
  cbn [getUTCFullYear getTime sub Math_abs] in R. inversion R as [Ek].
  pose proof (YearFromTime_epoch (clock h - tb) ltac:(lia)) as Y.
  split; [lia|]. exists tb. split; [exact E|lia].
Qed.

(** X12.  On a subject both copies of calculateAge accept, the one with a
    reference date called without it, the two ages differ by at most one:
    the age from the elapsed milliseconds is the age in calendar fields, the
    year before or the year after. *)
Theorem calculateAge_copies_within_one h p a k :
  Part000.calculateAge h p None = Ok (Int a) ->
  SrcModule.calculateAge h p = Ok (Int k) ->
  a - 1 <= k <= a + 1.
Proof.
  intros H1 H2.
  apply calculateAge_Ok_inv in H1 as (tb & _ & _ & E1 & _ & _ & _ & Ra).
  apply wallclock_calculateAge_Ok_inv in H2 as (tb' & _ & _ & E2 & _ & Hle & R).
  rewrite E1 in E2. inversion E2; subst tb'. clear E2.
  unfold Date_ofNumber, TimeClip in R.
  destruct (Z.abs (clock h - tb) <=? maxTime); [|discriminate R].
  cbn [getUTCFullYear getTime sub Math_abs] in R. inversion R as [Ek]. clear R.
  pose proof (YearFromTime_epoch (clock h - tb) ltac:(lia)) as Y.
  assert (Rk : k = YearFromTime (clock h - tb) - 1970) by lia.
  assert (Hk : 0 <= k) by lia. clear Ek Y.
  cbn [referenceTime] in Ra. rewrite ageAt_fields in Ra. inversion Ra as [Ea].
  clear Ra.
  (* the elapsed days, between the years 1970 + k and 1970 + k + 1 *)
  pose proof (YearFromDay_spec (Day (clock h - tb))) as [Slo Shi].
  fold (YearFromTime (clock h - tb)) in Slo, Shi.
  replace (YearFromTime (clock h - tb)) with (1970 + k) in Slo, Shi by lia.
  pose proof (DayFromYear_bounds (1970 + k)) as Bk.
  pose proof (DayFromYear_bounds (1970 + k + 1)) as Bk1.
  (* the two local days, and their places in their years *)
  pose proof (DayFromYear_bounds (localYear h (clock h))) as Bn.
  pose proof (DayFromYear_bounds (localYear h tb)) as Bb.
  pose proof (DayWithinYear_range (LocalTime h (clock h))) as Wn.
  pose proof (DayWithinYear_range (LocalTime h tb)) as Wb.
  pose proof (DaysInYear_cases (YearFromTime (LocalTime h (clock h)))) as Dn.
  pose proof (DaysInYear_cases (YearFromTime (LocalTime h tb))) as Db.
  destruct (dayWithinYear_order (LocalTime h (clock h)) (LocalTime h tb)) as [Had NotYet].
  fold (localMonth h (clock h)) (localMonth h tb)
       (localDate h (clock h)) (localDate h tb) in Had, NotYet.
  assert (Diff : Day (LocalTime h (clock h)) - Day (LocalTime h tb) - 1
                 <= Day (clock h - tb)
                 <= Day (LocalTime h (clock h)) - Day (LocalTime h tb)).
  { unfold Day, LocalTime, msPerDay. lia. }
  unfold DayWithinYear in Wn, Wb, Had, NotYet.
  fold (localYear h (clock h)) in Wn, Had, NotYet, Dn.
  fold (localYear h tb) in Wb, Had, NotYet, Db.
  destruct (_ || _).
  - specialize (Had eq_refl). clear NotYet. lia.
  - specialize (NotYet eq_refl). clear Had. lia.
Qed.

End AgeCalculators.

(** ** More on the form *)

Section FormMessages.
Import Validator Spec Notions Form FormHandlers.

Lemma trimStart_nil s :
  trimStart s = [] <-> Forall (fun c => isWhiteSpace c = true) s.
Proof.
  induction s as [|c s IH]; cbn [trimStart].
  - split; [constructor|reflexivity].
  - destruct (isWhiteSpace c) eqn:W.
    + rewrite IH. split; [now constructor|]. intros F. now inversion F.
    + split; [discriminate|]. intros F. inversion F. congruence.
Qed.

(** What is left of a string starts with a character that is no white
    space. *)
Lemma trimStart_all_white s :
  Forall (fun c => isWhiteSpace c = true) (trimStart s) -> trimStart s = [].
Proof.
  induction s as [|c s IH]; cbn [trimStart]; [reflexivity|].
  destruct (isWhiteSpace c) eqn:W; [exact IH|].
  intros F. inversion F. congruence.
Qed.

Lemma trim_nil s : trim s = [] <-> Forall (fun c => isWhiteSpace c = true) s.
Proof.
  unfold trim. split.
  - intros H. apply (f_equal (@rev N)) in H. rewrite rev_involutive in H.
    cbn [rev] in H. apply trimStart_nil, List.Forall_rev in H.
    rewrite rev_involutive in H. apply trimStart_nil, trimStart_all_white, H.
  - intros F. apply trimStart_nil in F. rewrite F. reflexivity.
Qed.

(** X13.  The form takes a field for empty exactly when all its characters
    are white space or line terminators (the empty string included). *)
Theorem isBlank_all_white value :
  isBlank value = true <-> Forall (fun c => isWhiteSpace c = true) value.
Proof.
  rewrite <- trim_nil. unfold isBlank. destruct value as [|c v].
  - split; reflexivity.
  - destruct (trim (c :: v)); split; try reflexivity; discriminate.
Qed.

(** A message validateField returns is never the empty string. *)
Lemma validateField_truthy h name value m :
  validateField h name value = Some m -> truthy (Some m) = true.
Proof.
  unfold validateField.
  assert (R : forall r : result unit, reported r ->
              match r with Ok _ => None | Throw err => Some (errorText err) end
              = Some m -> truthy (Some m) = true).
  { intros [[]|e]; cbn [reported]; [discriminate|]. intros T E.
    inversion E; subst. exact T. }
  repeat match goal with
  | |- context [if ?b then _ else _] => destruct b
  end; try (apply R; first
      [ apply validateEmail_reported | apply validateIdentity_reported
      | apply validateAge_reported | apply validatePostCode_reported
      | apply validateTown_reported ]).
  - intros E. inversion E. reflexivity.
  - discriminate.
Qed.

Lemma checkEntry_fieldMessage h acc name value :
  checkEntry h acc (name, value) =
  match fieldMessage h name value with
  | Some m => <[name := m]> acc
  | None => acc
  end.
Proof.
  unfold checkEntry, fieldMessage. destruct (isBlank value); [reflexivity|].
  destruct (validateField h name value) as [m|] eqn:V; [|reflexivity].
  now rewrite (validateField_truthy h name value m V).
Qed.

(** The map the loop over the entries builds, key by key. *)
Lemma fold_checkEntry_lookup h l acc name :
  NoDup (map fst l) ->
  fold_left (checkEntry h) l acc !! name =
  match find (fun e => String.eqb name (fst e)) l with
  | Some e =>
      match fieldMessage h name (snd e) with
      | Some m => Some m
      | None => acc !! name
      end
  | None => acc !! name
  end.
Proof.
  revert acc. induction l as [|[k v] l IH]; intros acc ND; cbn [fold_left find fst snd].
  - reflexivity.
  - cbn [map fst] in ND. apply NoDup_cons in ND as [NotIn ND].
    rewrite (IH _ ND), checkEntry_fieldMessage.
    destruct (String.eqb_spec name k) as [->|NE].
    + assert (F : find (fun e => String.eqb k (fst e)) l = None).
      { destruct (find _ l) as [e|] eqn:Fd; [|reflexivity].
        apply find_some in Fd as [In E]. apply String.eqb_eq in E.
        exfalso. apply NotIn. rewrite E. apply list_elem_of_In, in_map, In. }
      rewrite F. cbn [snd].
      destruct (fieldMessage h k v); [apply lookup_insert_eq|reflexivity].
    + destruct (fieldMessage h k v) as [m|]; [|reflexivity].
      rewrite lookup_insert_ne by congruence. reflexivity.
Qed.

Lemma find_entries name f :
  match find (fun e => String.eqb name (fst e)) (entries f) with
  | Some e => Some (snd e)
  | None => None
  end = field name f.
Proof.
  unfold entries, field. cbn [find fst snd].
  repeat match goal with
  | |- context [String.eqb name ?k] => destruct (String.eqb name k)
  end; reflexivity.
Qed.

Lemma errorsOf_field h f name :
  errorsOf h f !! name =
  match field name f with
  | Some value => fieldMessage h name value
  | None => None
  end.
Proof.
  unfold errorsOf, validateForm. cbn [fst newErrors form].
  rewrite fold_checkEntry_lookup.
  2:{ unfold entries. cbn [map fst]. repeat constructor;
      rewrite ?elem_of_cons, ?elem_of_nil; intuition discriminate. }
  rewrite <- find_entries, lookup_empty.
  destruct (find _ (entries f)) as [e|]; [|reflexivity].
  destruct (fieldMessage h name (snd e)); reflexivity.
Qed.

(** X14.  validateForm reports field by field: the map of errors holds,
    for each of the six fields, "This field is required" when the field is
    blank and otherwise the message of the field's validator, and nothing
    when the validator returns; it has no other key. *)
Theorem validateForm_errors_by_field h st name :
  newErrors (fst (validateForm h st)) !! name =
  match field name (form st) with
  | Some value =>
      if isBlank value then Some "This field is required"%string
      else validateField h name value
  | None => None
  end.
Proof. exact (errorsOf_field h (form st) name). Qed.



Lemma submittable_clean h f :
  submittable h f = true -> Forall (clean h) (entries f).
Proof.
  unfold submittable, submitEnabled, validateForm. cbn [snd isValid form].
  rewrite andb_true_iff, Nat.eqb_eq, map_size_empty_iff, fold_checkEntry_empty.
  tauto.
Qed.

Lemma emailShape_no_markup s : emailShape s -> Forall (fun c => ~ markup c) s.
Proof.
  intros (loc & dom & tld & -> & _ & Fl & _ & Fd & _ & Ft).
  repeat apply Forall_app_2.
  - eapply List.Forall_impl; [|exact Fl]. intros c.
    unfold emailLocalChar, latinLetter, asciiDigit, dot, underscore, hyphen,
      markup, lessThan, greaterThan. lia.
  - repeat constructor. unfold markup, atSign, lessThan, greaterThan. lia.
  - eapply List.Forall_impl; [|exact Fd]. intros c.
    unfold emailDomainChar, latinLetter, asciiDigit, dot, hyphen,
      markup, lessThan, greaterThan. lia.
  - repeat constructor. unfold markup, dot, lessThan, greaterThan. lia.
  - eapply List.Forall_impl; [|exact Ft]. intros c.
    unfold latinLetter, markup, lessThan, greaterThan. lia.
Qed.

Lemma validateEmail_Ok h v :
  validateEmail h v = Ok tt -> exists s, v = VString s /\ emailShape s.
Proof.
  unfold validateEmail. destruct v as [| | | |s| |]; try discriminate.
  cbn [typeof_string negb orb string_of].
  destruct (test reEmail s) eqn:T; [|discriminate].
  intros _. exists s. split; [reflexivity|now apply test_reEmail].
Qed.

(** X16.  A record the form lets through holds no [<] and no [>] in its
    last name, first name, email, post code and town: what is stored on
    submit cannot carry a tag in these five fields. *)
Theorem submittable_no_markup h f :
  submittable h f = true ->
  Forall (fun c => ~ markup c) (lastname f)
  /\ Forall (fun c => ~ markup c) (firstname f)
  /\ Forall (fun c => ~ markup c) (email f)
  /\ Forall (fun c => ~ markup c) (postCode f)
  /\ Forall (fun c => ~ markup c) (town f).
Proof.
  intros H. apply submittable_clean in H. unfold entries in H.
  rewrite !Forall_cons, Forall_nil in H.
  destruct H as (L & F & E & _ & P & T & _).
  apply clean_identity in L as [_ L]; [|now left].
  apply clean_identity in F as [_ F]; [|now right].
  apply clean_email in E as [_ E]. apply clean_postCode in P as [_ P].
  apply clean_town in T as [_ T].
  apply validateIdentity_Ok in L as (s1 & E1 & _ & L).
  apply validateIdentity_Ok in F as (s2 & E2 & _ & F).
  apply validateEmail_Ok in E as (s3 & E3 & E).
  apply validatePostCode_Ok in P as (s4 & E4 & _ & P).
  apply validateTown_Ok in T as (s5 & E5 & _ & T).
  inversion E1; inversion E2; inversion E3; inversion E4; inversion E5; subst.
  repeat split.
  - eapply List.Forall_impl; [|exact L]. apply nameChar_not_markup.
  - eapply List.Forall_impl; [|exact F]. apply nameChar_not_markup.
  - now apply emailShape_no_markup.
  - eapply List.Forall_impl; [|exact P]. intros c.
    unfold asciiDigit, markup, lessThan, greaterThan. lia.
  - eapply List.Forall_impl; [|exact T].
    intros c [N|W]; [now apply nameChar_not_markup|now apply whiteSpace_not_markup].
Qed.

End FormMessages.

(** ** The further properties at concrete inputs *)

Section MoreWitnesses.
Import Validator Spec Notions Form FormHandlers SampleHost.
Open Scope Z_scope.

Lemma validateTown_contract_witness :
  Forall (fun c => ~ markup c) (str "Mont de Marsan").
Proof.
  apply (proj2 (proj2 (validateTown_contract paris (VString (str "Mont de Marsan"))))).
  reflexivity.
Defined.

Lemma validateIdentity_accepts_witness : test reTag (str "Jean-Michel") = false.
Proof.
  apply (proj2 (validateIdentity_accepts paris (VString (str "Jean-Michel")))).
  reflexivity.
Defined.

Lemma validateIdentity_within_validateTown_witness :
  validateTown paris (VString (str "Jean-Michel")) = Ok tt
  /\ Forall (fun c => isWhiteSpace c = false) (str "Jean-Michel").
Proof.
  apply (validateIdentity_within_validateTown paris (str "Jean-Michel")).
  reflexivity.
Defined.

(** Accepted on 2026-03-01 for a birth on 2008-03-01, so accepted a day
    later for a birth in 1995. *)
Lemma validateAge_monotone_witness :
  validateAge parisNextDay (VDate (Int (utcDate 1995 5 15))) = Ok tt.
Proof.
  apply (validateAge_monotone paris parisNextDay (utcDate 2008 3 1) (utcDate 1995 5 15)).
  - reflexivity.
  - reflexivity.
  - vm_compute. discriminate.
  - vm_compute. discriminate.
Defined.

(** Born on 2008-02-29, of age on 2026-03-01. *)
Lemma validateAge_leap_day_witness :
  validateAge paris (VDate (Int (utcDate 2008 2 29))) = Ok tt
  <-> 2 <= localMonth paris (clock paris).
Proof.
  apply (validateAge_leap_day paris (utcDate 2008 2 29)); reflexivity.
Defined.

Lemma validateAge_agrees_with_calculateAge_witness :
  validateAge paris (VDate (Int (utcDate 1991 11 7))) = Ok tt <->
  exists a,
    Part000.calculateAge paris
      (VObject [("birth"%string, VDate (Int (utcDate 1991 11 7)))]) None
    = Ok (Int a) /\ 18 <= a.
Proof.
  apply (validateAge_agrees_with_calculateAge paris (utcDate 1991 11 7)).
  - exact paris_plausible.
  - exact timeValue_1991.
  - vm_compute. discriminate.
Defined.

Lemma calculateAge_range_witness :
  0 <= 35 <= localYear paris (utcDate 2026 12 1) - 1970.
Proof.
  apply (calculateAge_range paris bornIn1991 (Some (Int (utcDate 2026 12 1)))
           (utcDate 2026 12 1) 35); reflexivity.
Defined.

Lemma calculateAge_invalid_reference_witness :
  Part000.calculateAge paris bornIn1991 (Some NaN) = Ok NaN.
Proof.
  apply (calculateAge_invalid_reference paris
           [("birth"%string, VDate (Int (utcDate 1991 11 7)))] (utcDate 1991 11 7)).
  - exact paris_plausible.
  - exact timeValue_1991.
  - reflexivity.
  - vm_compute. discriminate.
Defined.

Lemma calculateAge_monotone_witness :
  exists a',
    Part000.calculateAge paris bornIn1991 (Some (Int (utcDate 2030 1 1)))
    = Ok (Int a') /\ 35 <= a'.
Proof.
  apply (calculateAge_monotone paris bornIn1991 (utcDate 2026 12 1) (utcDate 2030 1 1) 35).
  - reflexivity.
  - vm_compute. discriminate.
Defined.

Lemma wallclock_calculateAge_nonnegative_witness :
  0 <= 34
  /\ exists tb, get_property "birth" bornIn1991 = VDate (Int tb)
               /\ 34 = YearFromTime (clock paris - tb) - 1970.
Proof.
  apply (wallclock_calculateAge_nonnegative paris bornIn1991 34). reflexivity.
Defined.

Lemma calculateAge_copies_within_one_witness : 34 - 1 <= 34 <= 34 + 1.
Proof.
  apply (calculateAge_copies_within_one paris bornIn1991 34 34); reflexivity.
Defined.


Lemma submittable_no_markup_witness :
  Forall (fun c => ~ markup c) (lastname jeanPierre)
  /\ Forall (fun c => ~ markup c) (firstname jeanPierre)
  /\ Forall (fun c => ~ markup c) (email jeanPierre)
  /\ Forall (fun c => ~ markup c) (postCode jeanPierre)
  /\ Forall (fun c => ~ markup c) (town jeanPierre).
Proof.
  apply (submittable_no_markup paris jeanPierre). reflexivity.
Defined.

End MoreWitnesses.
